(** * WordPress content migration: a shallow embedding of
      [PythonWordPressContentMigration.py] and the properties of its
      discovery and transfer pipeline.

    The Python class [WordPressMigrator] talks to two web sites through one
    [requests.Session].  The embedding keeps the methods as they are written
    and makes their effects explicit:

    - values that come out of JSON are [PyVal]s, with Python's rules for
      truthiness, subscripting, [in], [.get] and [.split];
    - exceptions are values of [Exn], raised and caught by a small monad;
    - every network request, [time.sleep], console line and method entry is
      an [Event]; a run produces the list of events it emitted, and the web
      is an oracle that answers a request knowing everything that happened
      before it.

    A request is one exchange through the session: its answer is what the
    session hands back, after whatever the mounted adapter did to get it.
    JSON numbers are integers, and only exceptions below [Exception] are
    modelled.  Line numbers refer to the Python file. *)

From stdpp Require Import gmap strings list.
From Stdlib Require Import ZArith Ascii String.

Set Warnings "-register-all,-clear-no-such-hyp".

Open Scope string_scope.
Open Scope Z_scope.
Open Scope list_scope.

(** ** Strings

    Python [str] values are modelled as [string]s of 8-bit characters;
    [lower] is the ASCII part of [str.lower]. *)

Module PyStr.

Definition lower_ascii (c : ascii) : ascii :=
  let n := N_of_ascii c in
  if ((65 <=? n)%N && (n <=? 90)%N)%bool then ascii_of_N (n + 32) else c.

Fixpoint lower (s : string) : string :=
  match s with
  | EmptyString => EmptyString
  | String c s' => String (lower_ascii c) (lower s')
  end.

(** [needle in s] on two strings. *)
Fixpoint contains (needle s : string) : bool :=
  String.prefix needle s ||
  match s with
  | EmptyString => false
  | String _ s' => contains needle s'
  end.

(** [s.endswith(suf)] *)
Fixpoint endswith (suf s : string) : bool :=
  String.eqb s suf ||
  match s with
  | EmptyString => false
  | String _ s' => endswith suf s'
  end.

(** [s.rstrip(c)] for a one-character argument. *)
Fixpoint rstrip (c : ascii) (s : string) : string :=
  match s with
  | EmptyString => EmptyString
  | String a s' =>
      let r := rstrip c s' in
      if (String.eqb r EmptyString && Ascii.eqb a c)%bool then EmptyString
      else String a r
  end.

(** [s.split(sep)] for a non-empty separator: the text is scanned from the
    left, every occurrence of [sep] that does not overlap the previous one
    closes a piece.  [skip] counts the characters of a separator that is
    being stepped over, [cur] is the piece under construction. *)
Fixpoint split_aux (sep : string) (skip : nat) (cur s : string) : list string :=
  match s with
  | EmptyString => [cur]
  | String c s' =>
      match skip with
      | S k => split_aux sep k cur s'
      | O =>
          if String.prefix sep s
          then cur :: split_aux sep (String.length sep - 1) EmptyString s'
          else split_aux sep 0 (cur +:+ String c EmptyString) s'
      end
  end.

Definition split (sep s : string) : list string := split_aux sep 0 EmptyString s.

(** [l[-1]] of a list that [split] returned (never empty). *)
Definition last_piece (l : list string) : string := List.last l EmptyString.

(** [l[-2]]; [None] stands for [IndexError]. *)
Definition second_last (l : list string) : option string :=
  if (2 <=? List.length l)%nat then l !! (List.length l - 2)%nat else None.

End PyStr.

(** ** [get_content_type] (lines 166-177) *)

Definition content_types : gmap string string :=
  list_to_map
    [ ("jpg", "image/jpeg");
      ("jpeg", "image/jpeg");
      ("png", "image/png");
      ("gif", "image/gif");
      ("webp", "image/webp");
      ("pdf", "application/pdf") ].

(** [ext = filename.lower().split('.')[-1]] *)
Definition file_ext (filename : string) : string :=
  PyStr.last_piece (PyStr.split "." (PyStr.lower filename)).

Definition get_content_type (filename : string) : string :=
  default "application/octet-stream" (content_types !! file_ext filename).

(** ** Python values

    What [response.json()] returns, and what the methods pass around. *)

Inductive PyVal : Type :=
| PNone
| PBool (b : bool)
| PInt (n : Z)
| PStr (s : string)
| PList (l : list PyVal)
| PDict (d : list (string * PyVal)).

Inductive Exn : Type :=
| KeyError (k : PyVal)
| IndexError
| TypeError
| AttributeError
| ValueError (msg : string)
| HTTPError (status : Z)       (* [response.raise_for_status()] *)
| RequestException            (* the session could not produce a response *)
| JSONDecodeError             (* [response.json()] *)
| ParseError.                 (* [ET.fromstring] *)

(** The outcome of evaluating a piece of code: a value or an exception. *)
Inductive Res (A : Type) : Type :=
| Ok (a : A)
| Raise (e : Exn).
Arguments Ok {A} a.
Arguments Raise {A} e.

#[global] Instance Res_ret : MRet Res := @Ok.
#[global] Instance Res_bind : MBind Res :=
  λ A B k r, match r with Ok a => k a | Raise e => Raise e end.

Module Py.

(** [bool(v)] *)
Definition truthy (v : PyVal) : bool :=
  match v with
  | PNone => false
  | PBool b => b
  | PInt n => negb (n =? 0)
  | PStr s => negb (String.eqb s "")
  | PList l => match l with [] => false | _ => true end
  | PDict d => match d with [] => false | _ => true end
  end.

Fixpoint assoc (k : string) (d : list (string * PyVal)) : option PyVal :=
  match d with
  | [] => None
  | (k', v) :: d' => if String.eqb k k' then Some v else assoc k d'
  end.

(** [v[k]] for a string key. *)
Definition getitem (v : PyVal) (k : string) : Res PyVal :=
  match v with
  | PDict d => match assoc k d with Some x => Ok x | None => Raise (KeyError (PStr k)) end
  | _ => Raise TypeError
  end.

(** [v[0]] *)
Definition getitem0 (v : PyVal) : Res PyVal :=
  match v with
  | PList (x :: _) => Ok x
  | PList [] => Raise IndexError
  | PStr (String c _) => Ok (PStr (String c ""))
  | PStr EmptyString => Raise IndexError
  | PDict _ => Raise (KeyError (PInt 0))
  | _ => Raise TypeError
  end.

(** [v.get(k, dflt)] *)
Definition get (v : PyVal) (k : string) (dflt : PyVal) : Res PyVal :=
  match v with
  | PDict d => Ok (default dflt (assoc k d))
  | _ => Raise AttributeError
  end.

Definition is_str (k : string) (v : PyVal) : bool :=
  match v with PStr s => String.eqb s k | _ => false end.

(** [k in v] for a string [k]. *)
Definition contains (k : string) (v : PyVal) : Res bool :=
  match v with
  | PDict d => Ok (match assoc k d with Some _ => true | None => false end)
  | PList l => Ok (existsb (is_str k) l)
  | PStr s => Ok (PyStr.contains k s)
  | _ => Raise TypeError
  end.

(** [v.split(sep)] *)
Definition split (v : PyVal) (sep : string) : Res (list string) :=
  match v with
  | PStr s => Ok (PyStr.split sep s)
  | _ => Raise AttributeError
  end.

Fixpoint chars (s : string) : list PyVal :=
  match s with
  | EmptyString => []
  | String c s' => PStr (String c "") :: chars s'
  end.

(** The items [list.extend(v)] appends. *)
Definition iterate (v : PyVal) : Res (list PyVal) :=
  match v with
  | PList l => Ok l
  | PDict d => Ok (map (λ kv, PStr kv.1) d)
  | PStr s => Ok (chars s)
  | _ => Raise TypeError
  end.

End Py.

(** ** The network and the events of a run *)

Inductive Method := GET | POST.

(** A request URL: a string, or an f-string [f"{base}{id}"] whose last hole
    holds a Python value. *)
Inductive Target : Type :=
| Url (u : string)
| UrlId (base : string) (id : PyVal).

Record Request : Type := mkRequest {
  rq_method : Method;
  rq_url : Target;
  rq_params : list (string * PyVal);
  rq_auth : option (string * string);
  rq_headers : list (string * string);
  rq_json : option PyVal;
  rq_data : option string
}.

(** [root.tag] and the texts of [root.findall('.//{ns}loc')], in document
    order; the text of an empty element is [None]. *)
Record XmlDoc : Type := mkXml {
  tag : string;
  locs : list (option string)
}.

(** A response: its status, its body, and what [response.json()] and
    [ET.fromstring(response.content)] make of the body ([None]: they raise). *)
Record Response : Type := mkResponse {
  status_code : Z;
  content : string;
  json_body : option PyVal;
  xml_body : option XmlDoc
}.

Inductive NetResult : Type :=
| Responded (r : Response)
| NetError.

(** Where a method is entered, with its arguments. *)
Inductive Call : Type :=
| CGetPostByUrl (url : string)
| CGetAllSitemaps
| CCreatePost (post_data : PyVal)
| CGetMedia (media_url : string)
| CUploadMedia (media_content : option string) (filename : string)
| CGetContentType (filename : string)
| CSetFeaturedImage (post_id media_id : PyVal)
| CHandleFeaturedImage (post new_post_id : PyVal)
| CGetSitemapUrls
| CGetAllPostsViaApi
| CMigrateContent.

(** One constructor per [console.print], [progress.log], [add_task] and
    [update] of the class. *)
Inductive Msg : Type :=
| WarnFetchPost (url : string) (e : Exn)            (* line 68 *)
| ErrCreatePost (e : Exn)                           (* line 125 *)
| WarnDownloadMedia (media_url : string) (e : Exn)  (* line 134 *)
| ErrUploadMedia (e : Exn)                          (* line 163 *)
| WarnSetFeatured (e : Exn)                         (* line 196 *)
| LogDownloading (filename : string)                (* lines 211, 378 *)
| LogUploading (filename : string)                  (* lines 215, 381 *)
| WarnFeaturedImage (e : Exn)                       (* lines 222, 386 *)
| NoSitemaps                                        (* line 229 *)
| WarnSitemap (sitemap_url : string) (e : Exn)      (* line 257 *)
| WarnFetchPage (page : Z) (e : Exn)                (* line 297 *)
| TaskReadingSitemaps                               (* line 312 *)
| TaskCompleted                                     (* lines 314, 346 *)
| FoundInSitemaps (n : nat)                         (* line 317 *)
| TaskMigratingSitemap (n : nat)                    (* line 318 *)
| LogProcessing (url : string)                      (* line 325 *)
| LogSkipping (url : string)                        (* line 329 *)
| Advance                                           (* lines 335, 364 *)
| ErrMigrating (url : string) (e : Exn)             (* line 339 *)
| FallingBack                                       (* line 343 *)
| TaskFetchingApi                                   (* line 344 *)
| NoPostsFound                                      (* line 349 *)
| FoundViaApi (n : nat)                             (* line 352 *)
| TaskMigratingApi (n : nat)                        (* line 353 *)
| LogMigrating (title : PyVal)                      (* line 360 *)
| ErrMigratingPost (title : PyVal) (e : Exn).       (* line 368 *)

Inductive Event : Type :=
| Enter (c : Call)
| Http (rq : Request) (res : NetResult)
| Sleep (seconds : Z)
| Out (m : Msg).

(** The two sites and the network between: the answer to a request may
    depend on everything that happened before it. *)
Definition Server : Type := list Event → Request → NetResult.

(** ** The monad of the methods

    A computation reads the server and the events so far, and returns its
    outcome with the events it emitted itself.  The outcome is [None] when
    the computation did not end within the steps it was allowed (the
    [while True] of [get_all_posts_via_api]). *)

Definition M (A : Type) : Type :=
  Server → list Event → option (Res A) * list Event.

Definition ret {A} (a : A) : M A := λ _ _, (Some (Ok a), []).

Definition bind {A B} (m : M A) (k : A → M B) : M B :=
  λ srv h,
    match m srv h with
    | (Some (Ok a), e1) => let '(r, e2) := k a srv (h ++ e1) in (r, e1 ++ e2)
    | (Some (Raise e), e1) => (Some (Raise e), e1)
    | (None, e1) => (None, e1)
    end.

#[global] Instance M_ret : MRet M := @ret.
#[global] Instance M_bind : MBind M := λ A B k m, bind m k.

Definition raise {A} (e : Exn) : M A := λ _ _, (Some (Raise e), []).
Definition diverge {A} : M A := λ _ _, (None, []).

(** A Python expression without effects, which may raise. *)
Definition lift {A} (r : Res A) : M A := λ _ _, (Some r, []).

Definition emit (e : Event) : M unit := λ _ _, (Some (Ok tt), [e]).
Definition enter (c : Call) : M unit := emit (Enter c).
Definition out (m : Msg) : M unit := emit (Out m).
Definition sleep (seconds : Z) : M unit := emit (Sleep seconds).

(** [try: body  except Exception as e: handler e] *)
Definition try_except {A} (body : M A) (handler : Exn → M A) : M A :=
  λ srv h,
    match body srv h with
    | (Some (Ok a), e1) => (Some (Ok a), e1)
    | (Some (Raise e), e1) =>
        let '(r, e2) := handler e srv (h ++ e1) in (r, e1 ++ e2)
    | (None, e1) => (None, e1)
    end.

(** [self.session.get] / [self.session.post]: one request, answered by the
    server with what the session hands back; a request that gets no response
    raises. *)
Definition send (rq : Request) : M Response :=
  λ srv h,
    match srv h rq with
    | Responded r => (Some (Ok r), [Http rq (Responded r)])
    | NetError => (Some (Raise RequestException), [Http rq NetError])
    end.

(** [for x in l: body x] *)
Fixpoint for_each {A} (l : list A) (body : A → M unit) : M unit :=
  match l with
  | [] => ret tt
  | x :: l' => body x;; for_each l' body
  end.

(** [response.raise_for_status()] *)
Definition raise_for_status (r : Response) : M unit :=
  if (400 <=? status_code r) && (status_code r <? 600)
  then raise (HTTPError (status_code r)) else ret tt.

(** [response.json()] *)
Definition response_json (r : Response) : M PyVal :=
  match json_body r with Some v => ret v | None => raise JSONDecodeError end.

(** [ET.fromstring(response.content)] *)
Definition fromstring (r : Response) : M XmlDoc :=
  match xml_body r with Some d => ret d | None => raise ParseError end.

(** [try: body] with the exception, if any, handed back as a value: used
    where the handler needs what the body had already changed. *)
Definition attempt {A} (body : M A) : M (Exn + A) :=
  try_except (a ← body; ret (inr a)) (λ e, ret (inl e)).

Definition session_get (url : Target) (params : list (string * PyVal)) : M Response :=
  send (mkRequest GET url params None [] None None).

Definition session_post (url : Target) (auth : string * string)
    (headers : list (string * string)) (json : option PyVal) (data : option string)
  : M Response :=
  send (mkRequest POST url [] (Some auth) headers json data).

(** ** The class *)

(** [Retry(total=5, backoff_factor=0.5, status_forcelist=[500, 502, 503, 504])];
    the factor is kept as a fraction. *)
Record Retry : Type := mkRetry {
  total : nat;
  backoff_factor : Z * Z;
  status_forcelist : list Z
}.

Record WordPressMigrator : Type := mkMigrator {
  source_url : string;
  destination_url : string;
  auth : string * string;
  max_retries : Retry
}.

(** [__init__] (lines 17-40); the same [Retry] object is mounted for
    [http://] and [https://]. *)
Definition init (source destination username app_password : string) : WordPressMigrator :=
  {| source_url := PyStr.rstrip "/" source;
     destination_url := PyStr.rstrip "/" destination;
     auth := (username, app_password);
     max_retries := mkRetry 5 (1, 2) [500; 502; 503; 504] |}.

(** [get_post_by_url] (lines 41-69) *)
Definition get_post_by_url (self : WordPressMigrator) (url : string) : M PyVal :=
  enter (CGetPostByUrl url);;
  try_except
    (post_id ←
       (if PyStr.contains "/?p=" url
        then ret (PStr (PyStr.last_piece (PyStr.split "/?p=" url)))
        else
          slug ← (if PyStr.endswith "/" url
                  then lift (match PyStr.second_last (PyStr.split "/" url) with
                             | Some s => Ok s
                             | None => Raise IndexError
                             end)
                  else ret (PyStr.last_piece (PyStr.split "/" url)));
          response ← session_get (Url (source_url self +:+ "/wp-json/wp/v2/posts"))
                                 [("slug", PStr slug)];
          if status_code response =? 200 then
            posts ← response_json response;
            if Py.truthy posts
            then lift (p ← Py.getitem0 posts; Py.getitem p "id")
            else ret PNone
          else ret PNone);
     if Py.truthy post_id then
       response ← session_get (UrlId (source_url self +:+ "/wp-json/wp/v2/posts/") post_id)
                              [("_embed", PInt 1)];
       raise_for_status response;;
       response_json response
     else ret PNone)
    (λ e, out (WarnFetchPost url e);; ret PNone).

Definition potential_sitemaps : list string :=
  [ "/sitemap.xml"; "/wp-sitemap.xml"; "/post-sitemap.xml";
    "/wp-sitemap-posts-post-1.xml" ].

(** The [try] of [get_all_sitemaps] (lines 81-86): whether the sitemap is to
    be appended. *)
Definition probe_sitemap (self : WordPressMigrator) (sitemap : string) : M bool :=
  try_except
    (response ← session_get (Url (source_url self +:+ sitemap)) [];
     ret (status_code response =? 200))
    (λ _, ret false).

(** The loop of [get_all_sitemaps] (lines 80-86). *)
Fixpoint probe_sitemaps (self : WordPressMigrator)
    (paths : list string) (sitemap_urls : list string)
  : M (list string) :=
  match paths with
  | [] => ret sitemap_urls
  | sitemap :: rest =>
      found ← probe_sitemap self sitemap;
      probe_sitemaps self rest
        (if found : bool then sitemap_urls ++ [source_url self +:+ sitemap]
         else sitemap_urls)
  end.

(** [get_all_sitemaps] (lines 70-88) *)
Definition get_all_sitemaps (self : WordPressMigrator) : M (list string) :=
  enter CGetAllSitemaps;;
  probe_sitemaps self potential_sitemaps [].

(** The payload of [create_post] (lines 95-106), built in source order. *)
Definition new_post_payload (post_data : PyVal) : Res PyVal :=
  title ← (t ← Py.getitem post_data "title"; Py.getitem t "rendered");
  content ← (c ← Py.getitem post_data "content"; Py.getitem c "rendered");
  slug ← Py.getitem post_data "slug";
  excerpt ← (x ← Py.get post_data "excerpt" (PDict []); Py.get x "rendered" (PStr ""));
  categories ← Py.get post_data "categories" (PList []);
  tags ← Py.get post_data "tags" (PList []);
  meta ← Py.get post_data "meta" (PDict []);
  date ← Py.get post_data "date" PNone;
  modified ← Py.get post_data "modified" PNone;
  Ok (PDict [ ("title", title); ("content", content); ("status", PStr "publish");
              ("slug", slug); ("excerpt", excerpt); ("categories", categories);
              ("tags", tags); ("meta", meta); ("date", date);
              ("modified", modified) ]).

Definition create_request (self : WordPressMigrator) (new_post : PyVal) : Request :=
  mkRequest POST (Url (destination_url self +:+ "/wp-json/wp/v2/posts")) []
            (Some (auth self)) [("Content-Type", "application/json")]
            (Some new_post) None.

(** [create_post] (lines 89-126) *)
Definition create_post (self : WordPressMigrator) (post_data : PyVal) : M PyVal :=
  enter (CCreatePost post_data);;
  try_except
    (new_post ← lift (new_post_payload post_data);
     response ← send (create_request self new_post);
     raise_for_status response;;
     response_json response)
    (λ e, out (ErrCreatePost e);; raise e).

(** [get_media] (lines 127-135); [None] is Python's [None]. *)
Definition get_media (self : WordPressMigrator) (media_url : string)
  : M (option string) :=
  enter (CGetMedia media_url);;
  try_except
    (response ← session_get (Url media_url) [];
     raise_for_status response;;
     ret (Some (content response)))
    (λ e, out (WarnDownloadMedia media_url e);; ret None).

(** [bool(media_content)] for [bytes] or [None]. *)
Definition bytes_truthy (media_content : option string) : bool :=
  match media_content with
  | Some b => negb (String.eqb b "")
  | None => false
  end.

Definition upload_request (self : WordPressMigrator)
    (media_content : option string) (filename : string) : Request :=
  mkRequest POST (Url (destination_url self +:+ "/wp-json/wp/v2/media")) []
            (Some (auth self))
            [ ("Content-Type", get_content_type filename);
              ("Content-Disposition", "attachment; filename=" +:+ filename) ]
            None media_content.

(** [upload_media] (lines 137-164) *)
Definition upload_media (self : WordPressMigrator)
    (media_content : option string) (filename : string) : M PyVal :=
  enter (CUploadMedia media_content filename);;
  try_except
    ((if negb (bytes_truthy media_content)
      then raise (ValueError "No media content provided")
      else ret tt);;
     response ← send (upload_request self media_content filename);
     raise_for_status response;;
     response_json response)
    (λ e, out (ErrUploadMedia e);; raise e).

Definition link_request (self : WordPressMigrator) (post_id media_id : PyVal) : Request :=
  mkRequest POST (UrlId (destination_url self +:+ "/wp-json/wp/v2/posts/") post_id) []
            (Some (auth self)) [] (Some (PDict [("featured_media", media_id)])) None.

(** [set_featured_image] (lines 179-197) *)
Definition set_featured_image (self : WordPressMigrator)
    (post_id media_id : PyVal) : M PyVal :=
  enter (CSetFeaturedImage post_id media_id);;
  try_except
    (response ← send (link_request self post_id media_id);
     raise_for_status response;;
     response_json response)
    (λ e, out (WarnSetFeatured e);; ret PNone).

(** ['_embedded' in post and 'wp:featuredmedia' in post['_embedded']] *)
Definition has_featured_media (post : PyVal) : Res bool :=
  b ← Py.contains "_embedded" post;
  if b : bool
  then (e ← Py.getitem post "_embedded"; Py.contains "wp:featuredmedia" e)
  else Ok false.

(** [post['_embedded']['wp:featuredmedia'][0]] *)
Definition featured_media_info (post : PyVal) : Res PyVal :=
  e ← Py.getitem post "_embedded";
  l ← Py.getitem e "wp:featuredmedia";
  Py.getitem0 l.

(** The first [def handle_featured_image] of the class body (lines 199-222). *)
Definition handle_featured_image_199 (self : WordPressMigrator)
    (post new_post_id : PyVal) : M unit :=
  enter (CHandleFeaturedImage post new_post_id);;
  try_except
    (c ← lift (has_featured_media post);
     if c : bool then
       media_info ← lift (featured_media_info post);
       media_url ← lift (Py.get media_info "source_url" PNone);
       if negb (Py.truthy media_url) then ret tt
       else
         pieces ← lift (Py.split media_url "/");
         let filename := PyStr.last_piece pieces in
         out (LogDownloading filename);;
         media_content ← get_media self (match media_url with PStr u => u | _ => "" end);
         if bytes_truthy media_content then
           out (LogUploading filename);;
           uploaded_media ← upload_media self media_content filename;
           if Py.truthy uploaded_media then
             media_id ← lift (Py.getitem uploaded_media "id");
             set_featured_image self new_post_id media_id;;
             ret tt
           else ret tt
         else ret tt
     else ret tt)
    (λ e, out (WarnFeaturedImage e)).

(** The second [def handle_featured_image] of the class body (lines 371-386). *)
Definition handle_featured_image_371 (self : WordPressMigrator)
    (post new_post_id : PyVal) : M unit :=
  enter (CHandleFeaturedImage post new_post_id);;
  try_except
    (c ← lift (has_featured_media post);
     if c : bool then
       media_url ← lift (i ← featured_media_info post; Py.getitem i "source_url");
       pieces ← lift (Py.split media_url "/");
       let filename := PyStr.last_piece pieces in
       out (LogDownloading filename);;
       media_content ← get_media self (match media_url with PStr u => u | _ => "" end);
       out (LogUploading filename);;
       uploaded_media ← upload_media self media_content filename;
       media_id ← lift (Py.getitem uploaded_media "id");
       set_featured_image self new_post_id media_id;;
       ret tt
     else ret tt)
    (λ e, out (WarnFeaturedImage e)).

(** A class body runs top to bottom and the second [def] rebinds the name:
    [self.handle_featured_image] is the function of lines 371-386. *)
Definition handle_featured_image (self : WordPressMigrator) : PyVal → PyVal → M unit :=
  handle_featured_image_371 self.

(** *** Discovery through the sitemaps *)

(** ['/posts/' in url or '/?p=' in url or '/blog/' in url] *)
Definition is_post_url (url : string) : bool :=
  PyStr.contains "/posts/" url || PyStr.contains "/?p=" url || PyStr.contains "/blog/" url.

(** One entry of a sitemap index (lines 242-248): the set [urls] with what
    the entry adds to it. *)
Definition read_entry (self : WordPressMigrator)
    (sitemap : option string) (urls : gset (option string))
  : M (gset (option string)) :=
  text ← lift (match sitemap with
               | Some t => Ok t
               | None => Raise AttributeError
               end);
  if PyStr.contains "post" (PyStr.lower text) then
    sub_response ← session_get (Url text) [];
    sub_root ← fromstring sub_response;
    ret (urls ∪ list_to_set (locs sub_root))
  else ret urls.

(** The loop over the entries of a sitemap index (lines 241-248).  [urls] is
    the set the method updates in place: the loop returns it as it stands
    when the loop ends, with the exception that ended it, if any. *)
Fixpoint read_index (self : WordPressMigrator)
    (entries : list (option string)) (urls : gset (option string))
  : M (gset (option string) * option Exn) :=
  match entries with
  | [] => ret (urls, None)
  | sitemap :: rest =>
      r ← attempt (read_entry self sitemap urls);
      match r with
      | inl e => ret (urls, Some e)
      | inr urls' => read_index self rest urls'
      end
  end.

(** One turn of the loop over the sitemaps found (lines 233-258). *)
Definition read_sitemap (self : WordPressMigrator)
    (sitemap_url : string) (urls : gset (option string))
  : M (gset (option string)) :=
  r ← attempt
        (response ← session_get (Url sitemap_url) [];
         raise_for_status response;;
         fromstring response);
  match r with
  | inl e => out (WarnSitemap sitemap_url e);; ret urls
  | inr root =>
      if PyStr.contains "sitemapindex" (tag root) then
        '(urls', err) ← read_index self (locs root) urls;
        match err with
        | Some e => out (WarnSitemap sitemap_url e);; ret urls'
        | None => ret urls'
        end
      else ret (urls ∪ list_to_set (locs root))
  end.

Fixpoint read_sitemaps (self : WordPressMigrator)
    (sitemap_urls : list string) (urls : gset (option string))
  : M (gset (option string)) :=
  match sitemap_urls with
  | [] => ret urls
  | sitemap_url :: rest =>
      urls' ← read_sitemap self sitemap_url urls;
      read_sitemaps self rest urls'
  end.

(** The set comprehension of line 261, over the elements of [urls] in the
    order the set yields them; a [None] element makes [in] raise. *)
Fixpoint filter_post_urls (urls : list (option string)) : Res (gset string) :=
  match urls with
  | [] => Ok ∅
  | None :: _ => Raise TypeError
  | Some url :: rest =>
      post_urls ← filter_post_urls rest;
      Ok (if is_post_url url then {[ url ]} ∪ post_urls else post_urls)
  end.

(** [get_sitemap_urls] (lines 223-262); [elements] is the order in which a
    set is turned into a list. *)
Definition get_sitemap_urls (self : WordPressMigrator) : M (list string) :=
  enter CGetSitemapUrls;;
  sitemap_urls ← get_all_sitemaps self;
  match sitemap_urls with
  | [] => out NoSitemaps;; ret []
  | _ =>
      urls ← read_sitemaps self sitemap_urls ∅;
      post_urls ← lift (filter_post_urls (elements urls));
      ret (elements post_urls)
  end.

(** *** Enumeration through the API *)

Definition page_request (self : WordPressMigrator) (page : Z) : Request :=
  mkRequest GET (Url (source_url self +:+ "/wp-json/wp/v2/posts"))
            [ ("page", PInt page); ("per_page", PInt 100);
              ("status", PStr "publish"); ("_embed", PInt 1) ]
            None [] None None.

(** How one turn of [while True] ends. *)
Inductive Turn : Type :=
| Break
| Continue (all_posts : list PyVal).

(** The [try] body of the loop (lines 272-294). *)
Definition fetch_page (self : WordPressMigrator) (page : Z)
    (all_posts : list PyVal) : M Turn :=
  response ← send (page_request self page);
  if status_code response =? 400 then ret Break
  else
    raise_for_status response;;
    posts ← response_json response;
    if negb (Py.truthy posts) then ret Break
    else
      items ← lift (Py.iterate posts);
      sleep 1;;
      ret (Continue (all_posts ++ items)).

(** The loop of [get_all_posts_via_api] (lines 270-298); [fuel] bounds the
    number of turns. *)
Fixpoint fetch_pages (self : WordPressMigrator) (fuel : nat) (page : Z)
    (all_posts : list PyVal)
  : M (list PyVal) :=
  match fuel with
  | O => diverge
  | S fuel' =>
      t ← try_except (fetch_page self page all_posts)
                     (λ e, out (WarnFetchPage page e);; ret Break);
      match t with
      | Break => ret all_posts
      | Continue all_posts' => fetch_pages self fuel' (page + 1) all_posts'
      end
  end.

(** [get_all_posts_via_api] (lines 264-300) *)
Definition get_all_posts_via_api (self : WordPressMigrator) (fuel : nat) : M (list PyVal) :=
  enter CGetAllPostsViaApi;;
  fetch_pages self fuel 1 [].

(** *** The orchestrator *)

(** The body of the loop over the sitemap URLs (lines 324-340). *)
Definition migrate_url (self : WordPressMigrator) (url : string) : M unit :=
  try_except
    (out (LogProcessing url);;
     post ← get_post_by_url self url;
     if negb (Py.truthy post) then out (LogSkipping url)
     else
       new_post ← create_post self post;
       new_post_id ← lift (Py.getitem new_post "id");
       handle_featured_image self post new_post_id;;
       out Advance;;
       sleep 1)
    (λ e, out (ErrMigrating url e)).

(** The body of the loop over the posts of the API (lines 359-369); the
    handler formats its message from the post and may raise itself. *)
Definition migrate_post (self : WordPressMigrator) (post : PyVal) : M unit :=
  try_except
    (title ← lift (t ← Py.getitem post "title"; Py.getitem t "rendered");
     out (LogMigrating title);;
     new_post ← create_post self post;
     new_post_id ← lift (Py.getitem new_post "id");
     handle_featured_image self post new_post_id;;
     out Advance;;
     sleep 1)
    (λ e,
       title ← lift (t ← Py.get post "title" (PDict []);
                     Py.get t "rendered" (PStr "Unknown"));
       out (ErrMigratingPost title e)).

(** [migrate_content] (lines 302-369) *)
Definition migrate_content (self : WordPressMigrator) (fuel : nat) : M unit :=
  enter CMigrateContent;;
  out TaskReadingSitemaps;;
  post_urls ← get_sitemap_urls self;
  out TaskCompleted;;
  match post_urls with
  | _ :: _ =>
      out (FoundInSitemaps (List.length post_urls));;
      out (TaskMigratingSitemap (List.length post_urls));;
      for_each post_urls (migrate_url self)
  | [] =>
      out FallingBack;;
      out TaskFetchingApi;;
      posts ← get_all_posts_via_api self fuel;
      out TaskCompleted;;
      match posts with
      | [] => out NoPostsFound
      | _ :: _ =>
          out (FoundViaApi (List.length posts));;
          out (TaskMigratingApi (List.length posts));;
          for_each posts (migrate_post self)
      end
  end.

(** * The vocabulary of the properties *)

(** ** Events and outcomes of a computation *)

(** Every event that [m] emits, on any server and after any history, is in
    [P]. *)
Definition emits {A} (P : Event → Prop) (m : M A) : Prop :=
  ∀ srv h, Forall P (m srv h).2.

(** Entering one of the three media operations. *)
Definition media_call (e : Event) : bool :=
  match e with
  | Enter (CGetMedia _) | Enter (CUploadMedia _ _) | Enter (CSetFeaturedImage _ _) => true
  | _ => false
  end.

(** Entering [set_featured_image]. *)
Definition link_call (e : Event) : bool :=
  match e with
  | Enter (CSetFeaturedImage _ _) => true
  | _ => false
  end.

(** Entering a discovery or resolution method. *)
Definition strategy_call (e : Event) : bool :=
  match e with
  | Enter (CGetPostByUrl _) | Enter CGetAllPostsViaApi => true
  | _ => false
  end.

(** [m] ends within the steps it is allowed. *)
Definition halts {A} (m : M A) : Prop := ∀ srv h, (m srv h).1 ≠ None.

(** [returns m]: [m] ends and does not raise. *)
Definition returns {A} (m : M A) : Prop := ∀ srv h, ∃ a, (m srv h).1 = Some (Ok a).

(** ** One item *)

(** [r] is not an error for [raise_for_status]. *)
Definition status_ok (r : Response) : Prop :=
  ((400 <=? status_code r) && (status_code r <? 600)) = false.

(** The event of a create request that the destination answered with a
    record [new_post]. *)
Definition created (self : WordPressMigrator) (new_post : PyVal) (e : Event) : Prop :=
  ∃ payload r,
    e = Http (create_request self payload) (Responded r) ∧
    status_ok r ∧ json_body r = Some new_post.

(** Printing the failure of [create_post]. *)
Definition create_failure (e : Event) : bool :=
  match e with
  | Out (ErrCreatePost _) => true
  | _ => false
  end.

(** A link call, if [e] is one, is for the record [post_id]. *)
Definition links_to (post_id : PyVal) (e : Event) : Prop :=
  ∀ pid mid, e = Enter (CSetFeaturedImage pid mid) → pid = post_id.

(** What the events of one item look like: either no media operation at all,
    or a prefix without media operations that holds the answered create
    request, then the events of [handle_featured_image] for the record it
    created, then the bookkeeping of a finished item. *)
Definition item_shape (self : WordPressMigrator) (evs : list Event) : Prop :=
  Forall (λ e, media_call e = false) evs ∨
  ∃ a new_post new_post_id evh,
    evs = a ++ evh ++ [Out Advance; Sleep 1] ∧
    Forall (λ e, media_call e = false) a ∧
    Exists (created self new_post) a ∧
    Py.getitem new_post "id" = Ok new_post_id ∧
    Forall (links_to new_post_id) evh ∧
    Forall (λ e, create_failure e = false) evs.

(** An item of either loop. *)
Inductive Item : Type :=
| FromSitemap (url : string)
| FromApi (post : PyVal).

Definition migrate_item (self : WordPressMigrator) (item : Item) : M unit :=
  match item with
  | FromSitemap url => migrate_url self url
  | FromApi post => migrate_post self post
  end.

(** ** Pages of the API *)

(** [r] is a page that carries the items [items]: no error status, and a
    JSON list that is not empty. *)
Definition page_of (r : Response) (items : list PyVal) : Prop :=
  status_ok r ∧ json_body r = Some (PList items) ∧ items ≠ [].

(** [r] ends the enumeration: status 400, or a page with zero items. *)
Definition end_of_posts (r : Response) : Prop :=
  status_code r = 400 ∨ (status_ok r ∧ json_body r = Some (PList [])).

(** The fetch of a page fails with the exception [e]: no response, an error
    status other than 400, or a body that is not JSON. *)
Inductive fetch_fails : NetResult → Exn → Prop :=
| fails_network : fetch_fails NetError RequestException
| fails_status r :
    400 < status_code r < 600 →
    fetch_fails (Responded r) (HTTPError (status_code r))
| fails_decoding r :
    status_ok r → json_body r = None →
    fetch_fails (Responded r) JSONDecodeError.

(** The requests for the pages [page], [page + 1], ... answered by
    [responses], each followed by the pause of one second. *)
Fixpoint page_trace (self : WordPressMigrator) (page : Z) (responses : list Response)
  : list Event :=
  match responses with
  | [] => []
  | r :: rest =>
      Http (page_request self page) (Responded r) :: Sleep 1
        :: page_trace self (page + 1) rest
  end.

(** The events of the class [P] that [m] emits are, in order, [l]. *)
Definition calls_of {A} (P : Event → bool) (m : M A) (l : list Event) : Prop :=
  ∀ srv h, List.filter P (m srv h).2 = l.

(** ** Sites that answer each URL always the same *)

Definition Site : Type := Request → NetResult.

(** The server of a site: the history plays no part. *)
Definition static (site : Site) : Server := λ _ rq, site rq.

(** The request of [self.session.get(url)]. *)
Definition get_request (url : string) : Request :=
  mkRequest GET (Url url) [] None [] None None.

(** [get_all_sitemaps] keeps a path when the site answers it with 200. *)
Definition found (site : Site) (url : string) : bool :=
  match site (get_request url) with
  | Responded r => status_code r =? 200
  | NetError => false
  end.

(** The document that [get_sitemap_urls] reads at a sitemap it found: the
    response must pass [raise_for_status] and parse. *)
Definition sitemap_doc (site : Site) (url : string) : option XmlDoc :=
  match site (get_request url) with
  | Responded r =>
      if (400 <=? status_code r) && (status_code r <? 600) then None else xml_body r
  | NetError => None
  end.

(** The document read at an entry of a sitemap index: it must parse. *)
Definition child_doc (site : Site) (url : string) : option XmlDoc :=
  match site (get_request url) with
  | Responded r => xml_body r
  | NetError => None
  end.

(** What the loop over the entries of an index collects: the entries are
    read in order, up to the first one that fails. *)
Fixpoint index_locs (site : Site) (entries : list (option string))
  : list (option string) :=
  match entries with
  | [] => []
  | None :: _ => []
  | Some text :: rest =>
      if PyStr.contains "post" (PyStr.lower text) then
        match child_doc site text with
        | Some sub_root => locs sub_root ++ index_locs site rest
        | None => []
        end
      else index_locs site rest
  end.

(** What one entry of an index adds, or [None] when reading it fails. *)
Definition entry_locs (site : Site) (entry : option string)
  : option (list (option string)) :=
  match entry with
  | Some text =>
      if PyStr.contains "post" (PyStr.lower text)
      then locs <$> child_doc site text
      else Some []
  | None => None
  end.

(** The exception of an entry that fails. *)
Definition entry_error (site : Site) (entry : option string) : Exn :=
  match entry with
  | None => AttributeError
  | Some text =>
      match site (get_request text) with
      | NetError => RequestException
      | Responded _ => ParseError
      end
  end.

(** What the turn of the loop on one sitemap that was found collects. *)
Definition sitemap_locs (site : Site) (url : string) : list (option string) :=
  match sitemap_doc site url with
  | Some root =>
      if PyStr.contains "sitemapindex" (tag root)
      then index_locs site (locs root)
      else locs root
  | None => []
  end.

(** All the [<loc>] texts that a run of [get_sitemap_urls] collects. *)
Definition collected (self : WordPressMigrator) (site : Site) : list (option string) :=
  flat_map (sitemap_locs site)
    (List.filter (found site) (map (λ p, source_url self +:+ p) potential_sitemaps)).

(** The index reader as the specification words it: every index document
    that cannot be fetched or parsed is skipped on its own, and all the
    others are read. *)
Module Spec.

(** "recurse one level into each child index whose reference string contains
    a content-type hint, and collect leaf URLs from those" *)
Definition child_locs (site : Site) (entry : option string) : list (option string) :=
  match entry with
  | Some text =>
      if PyStr.contains "post" (PyStr.lower text) then
        match child_doc site text with
        | Some sub_root => locs sub_root
        | None => []
        end
      else []
  | None => []
  end.

(** "if the document is itself an index-of-indexes ...; otherwise collect
    leaf URLs directly from the document" *)
Definition document_locs (site : Site) (url : string) : list (option string) :=
  match sitemap_doc site url with
  | Some root =>
      if PyStr.contains "sitemapindex" (tag root)
      then flat_map (child_locs site) (locs root)
      else locs root
  | None => []
  end.

(** "all discovered URLs across all probed documents" *)
Definition leaf_locs (self : WordPressMigrator) (site : Site) : list (option string) :=
  flat_map (document_locs site)
    (List.filter (found site) (map (λ p, source_url self +:+ p) potential_sitemaps)).

(** "Index Reader's output set has exactly those N URLs deduplicated" *)
Definition index_reader_claim (self : WordPressMigrator) (site : Site) : Prop :=
  ∃ urls,
    (get_sitemap_urls self (static site) []).1 = Some (Ok urls) ∧
    NoDup urls ∧
    ∀ url, url ∈ urls ↔ Some url ∈ leaf_locs self site ∧ is_post_url url = true.

End Spec.

Module Scenario.

Definition me : WordPressMigrator :=
  init "https://src.example/" "https://dst.example" "admin" "app-password".

Definition sitemap_ns : string := "{http://www.sitemaps.org/schemas/sitemap/0.9}".

Definition xml_response (root : XmlDoc) : NetResult :=
  Responded (mkResponse 200 "<?xml" None (Some root)).

Definition json_response (v : PyVal) : NetResult :=
  Responded (mkResponse 200 "json" (Some v) None).

Definition not_found : NetResult := Responded (mkResponse 404 "" None None).

(** A site whose sitemap index has two entries; the first one is not XML. *)
Definition broken_child_site : Site := λ rq,
  match rq_method rq, rq_url rq with
  | GET, Url "https://src.example/sitemap.xml" =>
      xml_response (mkXml (sitemap_ns +:+ "sitemapindex")
                      [ Some "https://src.example/post-sitemap1.xml";
                        Some "https://src.example/post-sitemap2.xml" ])
  | GET, Url "https://src.example/post-sitemap1.xml" =>
      Responded (mkResponse 200 "<html>" None None)
  | GET, Url "https://src.example/post-sitemap2.xml" =>
      xml_response (mkXml (sitemap_ns +:+ "urlset") [Some "https://src.example/blog/a"])
  | _, _ => not_found
  end.

(** A post with a featured image, and one without. *)
Definition post_a : PyVal :=
  PDict [ ("id", PInt 7);
          ("title", PDict [("rendered", PStr "A")]);
          ("content", PDict [("rendered", PStr "<p>a</p>")]);
          ("slug", PStr "a");
          ("_embedded",
           PDict [("wp:featuredmedia",
                   PList [PDict [("source_url", PStr "https://src.example/img/a.PNG")]])]) ].

Definition post_b : PyVal :=
  PDict [ ("id", PInt 8);
          ("title", PDict [("rendered", PStr "B")]);
          ("content", PDict [("rendered", PStr "<p>b</p>")]);
          ("slug", PStr "b") ].

(** A source with one sitemap of two posts (one listed twice) and a page
    that is not a post, and a destination that accepts everything. *)
Definition blog : Site := λ rq,
  match rq_method rq, rq_url rq with
  | GET, Url "https://src.example/sitemap.xml" =>
      xml_response (mkXml (sitemap_ns +:+ "urlset")
                      [ Some "https://src.example/blog/a/";
                        Some "https://src.example/blog/b";
                        Some "https://src.example/about";
                        Some "https://src.example/blog/b" ])
  | GET, Url "https://src.example/wp-json/wp/v2/posts" =>
      match rq_params rq with
      | [("slug", PStr "a")] => json_response (PList [PDict [("id", PInt 7)]])
      | [("slug", PStr "b")] => json_response (PList [PDict [("id", PInt 8)]])
      | _ => Responded (mkResponse 400 "" None None)
      end
  | GET, UrlId "https://src.example/wp-json/wp/v2/posts/" (PInt 7) => json_response post_a
  | GET, UrlId "https://src.example/wp-json/wp/v2/posts/" (PInt 8) => json_response post_b
  | GET, Url "https://src.example/img/a.PNG" => Responded (mkResponse 200 "PNG" None None)
  | POST, Url "https://dst.example/wp-json/wp/v2/posts" =>
      json_response (PDict [("id", PInt 101)])
  | POST, Url "https://dst.example/wp-json/wp/v2/media" =>
      json_response (PDict [("id", PInt 55)])
  | POST, UrlId "https://dst.example/wp-json/wp/v2/posts/" _ => json_response (PDict [])
  | _, _ => not_found
  end.

(** The same sites, with the media file of the source missing. *)
Definition blog_without_media : Site := λ rq,
  match rq_method rq, rq_url rq with
  | GET, Url "https://src.example/img/a.PNG" => not_found
  | _, _ => blog rq
  end.

(** No network at all. *)
Definition offline : Server := λ _ _, NetError.

(** A sitemap with an empty [<loc/>]. *)
Definition empty_loc_site : Site := λ rq,
  match rq_method rq, rq_url rq with
  | GET, Url "https://src.example/sitemap.xml" =>
      xml_response (mkXml (sitemap_ns +:+ "urlset") [Some "https://src.example/blog/a"; None])
  | _, _ => not_found
  end.

Definition requested (url : string) (e : Event) : bool :=
  match e with
  | Http rq _ => match rq_url rq with Url u => String.eqb u url | _ => false end
  | _ => false
  end.

(** A source whose first sitemap answers the probe and then goes away, and
    whose second sitemap lists one post. *)
Definition flaky : Server := λ h rq,
  match rq_method rq, rq_url rq with
  | GET, Url "https://src.example/sitemap.xml" =>
      if existsb (requested "https://src.example/sitemap.xml") h
      then NetError
      else xml_response (mkXml (sitemap_ns +:+ "urlset") [Some "https://src.example/blog/a"])
  | GET, Url "https://src.example/wp-sitemap.xml" =>
      xml_response (mkXml (sitemap_ns +:+ "urlset") [Some "https://src.example/blog/c"])
  | _, _ => not_found
  end.

(** The number of entries into the methods that [P] singles out. *)
Definition entries (P : Call → bool) (evs : list Event) : nat :=
  List.length (List.filter (λ e, match e with Enter c => P c | _ => false end) evs).

Definition hundred_posts : list PyVal := replicate 100 post_b.

Definition full_page : Response :=
  mkResponse 200 "json" (Some (PList hundred_posts)) None.

Definition empty_page : Response := mkResponse 200 "[]" (Some (PList [])) None.

Definition server_error : Response := mkResponse 500 "" None None.

(** The page number of a listing request. *)
Definition page_number (rq : Request) : Z :=
  match rq_params rq with
  | ("page", PInt n) :: _ => n
  | _ => 0
  end.

(** A source without sitemaps whose API has two full pages and then an
    empty one. *)
Definition three_pages : Server := λ _ rq,
  match rq_method rq, rq_url rq with
  | GET, Url "https://src.example/wp-json/wp/v2/posts" =>
      match page_number rq with
      | 1 | 2 => Responded full_page
      | _ => Responded empty_page
      end
  | _, _ => not_found
  end.

(** A source whose API fails on the second page. *)
Definition failing_second_page : Server := λ _ rq,
  match rq_method rq, rq_url rq with
  | GET, Url "https://src.example/wp-json/wp/v2/posts" =>
      match page_number rq with
      | 1 => Responded full_page
      | _ => Responded server_error
      end
  | _, _ => not_found
  end.

End Scenario.

(** * More vocabulary *)

(** The requests of a run, in the order they were sent. *)
Definition requests (evs : list Event) : list Request :=
  omap (λ e, match e with Http rq _ => Some rq | _ => None end) evs.

(** A run of [n] slashes. *)
Fixpoint slashes (n : nat) : string :=
  match n with
  | O => ""
  | S n' => String "/" (slashes n')
  end.

(** The request of the lookup by slug (lines 51-53). *)
Definition slug_request (self : WordPressMigrator) (slug : string) : Request :=
  mkRequest GET (Url (source_url self +:+ "/wp-json/wp/v2/posts"))
            [("slug", PStr slug)] None [] None None.

(** The request for one post with its embedded resources (lines 60-62). *)
Definition post_request (self : WordPressMigrator) (post_id : PyVal) : Request :=
  mkRequest GET (UrlId (source_url self +:+ "/wp-json/wp/v2/posts/") post_id)
            [("_embed", PInt 1)] None [] None None.

(** [post[key]['rendered']] *)
Definition rendered (post : PyVal) (key : string) : Res PyVal :=
  x ← Py.getitem post key; Py.getitem x "rendered".

(** The posts that [create_post] can build a payload from: a title and a
    content with a rendered text, a slug, and an excerpt that, when there is
    one, is a dictionary. *)
Definition payload_ok (post : PyVal) : Prop :=
  (∃ title, rendered post "title" = Ok title) ∧
  (∃ content, rendered post "content" = Ok content) ∧
  (∃ slug, Py.getitem post "slug" = Ok slug) ∧
  (∀ excerpt, Py.getitem post "excerpt" = Ok excerpt → ∃ d, excerpt = PDict d).

(** The keys of a dictionary, in order. *)
Definition keys (v : PyVal) : list string :=
  match v with
  | PDict d => d.*1
  | _ => []
  end.

(** The requests for the [n] pages from [page] on. *)
Definition page_requests (self : WordPressMigrator) (page : Z) (n : nat) : list Request :=
  map (λ i, page_request self (page + Z.of_nat i)) (seq 0 n).

(** Servers for the examples of the second part. *)
Module Cases.

(** A source whose API answers every request with a full page. *)
Definition endless : Server := λ _ _, Responded Scenario.full_page.

End Cases.

(** Where a request goes: the URL, or what comes before the identifier
    formatted into it. *)
Definition target_base (t : Target) : string :=
  match t with
  | Url u => u
  | UrlId base _ => base
  end.

(** The two kinds of request of the class: a [GET] without credentials, or
    a [POST] with the credentials of the instance to a URL that begins with
    its destination. *)
Definition authorised (self : WordPressMigrator) (rq : Request) : Prop :=
  match rq_method rq with
  | GET => rq_auth rq = None ∧ rq_json rq = None ∧ rq_data rq = None
  | POST =>
      rq_auth rq = Some (auth self) ∧
      ∃ path, target_base (rq_url rq) = destination_url self +:+ path
  end.

(** The same, of the events of a run. *)
Definition sends_authorised (self : WordPressMigrator) (e : Event) : Prop :=
  ∀ rq res, e = Http rq res → authorised self rq.

(** The posts whose title the error message of the API loop can show: a
    dictionary whose title, when there is one, is a dictionary. *)
Definition titled (post : PyVal) : Prop :=
  ∃ d, post = PDict d ∧ ∀ t, Py.assoc "title" d = Some t → ∃ d', t = PDict d'.

(** The only exceptions that [m] lets out are in [P]. *)
Definition raises_only {A} (P : Exn → Prop) (m : M A) : Prop :=
  ∀ srv h e, (m srv h).1 = Some (Raise e) → P e.

(** A source where no request succeeds: there is no response, or one with
    an error status. *)
Definition refuses (srv : Server) : Prop :=
  ∀ h rq,
    match srv h rq with
    | Responded r => 400 ≤ status_code r < 600
    | NetError => True
    end.

(** The bookkeeping of a finished item: the progress bar advances and the
    loop pauses. *)
Definition bookkeeping (e : Event) : bool :=
  match e with
  | Out Advance | Sleep _ => true
  | _ => false
  end.

(** A run of a loop body either has no bookkeeping at all, or returns
    normally with the bookkeeping as its last two events. *)
Definition item_pause (run : option (Res unit) * list Event) : Prop :=
  Forall (λ e, bookkeeping e = false) run.2 ∨
  (run.1 = Some (Ok tt) ∧
   ∃ pre, run.2 = pre ++ [Out Advance; Sleep 1] ∧
          Forall (λ e, bookkeeping e = false) pre).

(** The requests that one featured image can take: none; the download; the
    download and the upload of what was downloaded, under the last segment
    of its URL; these and the link of the uploaded file to the new record. *)
Inductive media_requests (self : WordPressMigrator) (new_post_id : PyVal)
  : list Request → Prop :=
| media_none : media_requests self new_post_id []
| media_download media_url :
    media_requests self new_post_id [get_request media_url]
| media_upload media_url media_content :
    bytes_truthy media_content = true →
    media_requests self new_post_id
      [ get_request media_url;
        upload_request self media_content (PyStr.last_piece (PyStr.split "/" media_url)) ]
| media_link media_url media_content media_id :
    bytes_truthy media_content = true →
    media_requests self new_post_id
      [ get_request media_url;
        upload_request self media_content (PyStr.last_piece (PyStr.split "/" media_url));
        link_request self new_post_id media_id ].

(** * Reasoning about runs *)

Lemma bind_run {A B} (m : M A) (k : A → M B) srv h :
  (m ≫= k) srv h =
  match m srv h with
  | (Some (Ok a), e1) => let '(r, e2) := k a srv (h ++ e1) in (r, e1 ++ e2)
  | (Some (Raise e), e1) => (Some (Raise e), e1)
  | (None, e1) => (None, e1)
  end.
Proof. reflexivity. Qed.

(** ** Events a computation can emit *)

Section Emits.
Context (P : Event → Prop).

Lemma emits_ret {A} (a : A) : emits P (mret a).
Proof. intros srv h. constructor. Qed.

Lemma emits_raise {A} e : emits P (@raise A e).
Proof. intros srv h. constructor. Qed.

Lemma emits_diverge {A} : emits P (@diverge A).
Proof. intros srv h. constructor. Qed.

Lemma emits_lift {A} (r : Res A) : emits P (lift r).
Proof. intros srv h. constructor. Qed.

Lemma emits_emit e : P e → emits P (emit e).
Proof. intros He srv h. by repeat constructor. Qed.

Lemma emits_send rq : (∀ res, P (Http rq res)) → emits P (send rq).
Proof.
  intros H srv h. unfold send. destruct (srv h rq); by repeat constructor.
Qed.

Lemma emits_bind {A B} (m : M A) (k : A → M B) :
  emits P m → (∀ a, emits P (k a)) → emits P (m ≫= k).
Proof.
  intros Hm Hk srv h. rewrite bind_run. specialize (Hm srv h).
  destruct (m srv h) as [[[a|e]|] e1]; simpl in *; try done.
  specialize (Hk a srv (h ++ e1)). destruct (k a srv (h ++ e1)) as [r e2].
  simpl in *. by apply Forall_app.
Qed.

Lemma emits_try_except {A} (m : M A) hd :
  emits P m → (∀ e, emits P (hd e)) → emits P (try_except m hd).
Proof.
  intros Hm Hh srv h. unfold try_except. specialize (Hm srv h).
  destruct (m srv h) as [[[a|e]|] e1]; simpl in *; try done.
  specialize (Hh e srv (h ++ e1)). destruct (hd e srv (h ++ e1)) as [r e2].
  simpl in *. by apply Forall_app.
Qed.

Lemma emits_attempt {A} (m : M A) : emits P m → emits P (attempt m).
Proof.
  intros Hm. apply emits_try_except.
  - apply emits_bind; [done | intros; apply emits_ret].
  - intros; apply emits_ret.
Qed.

Lemma emits_for_each {A} (l : list A) body :
  (∀ x, emits P (body x)) → emits P (for_each l body).
Proof.
  intros Hb. induction l as [|x l IH]; simpl.
  - apply emits_ret.
  - apply emits_bind; [apply Hb | intros; apply IH].
Qed.

Lemma emits_raise_for_status r : emits P (raise_for_status r).
Proof.
  unfold raise_for_status. destruct (_ && _); [apply emits_raise | apply emits_ret].
Qed.

Lemma emits_response_json r : emits P (response_json r).
Proof.
  unfold response_json. destruct (json_body r); [apply emits_ret | apply emits_raise].
Qed.

Lemma emits_fromstring r : emits P (fromstring r).
Proof.
  unfold fromstring. destruct (xml_body r); [apply emits_ret | apply emits_raise].
Qed.

End Emits.

(** One step of a proof that a method emits only events in [P]: split the
    code along its binds and branches; the events themselves are checked by
    [emits_close]. *)
Ltac emits_close := cbv beta; first [reflexivity | done | congruence].

Ltac emits_step :=
  lazymatch goal with
  | |- emits _ (mbind _ _) => apply emits_bind; [| intros ?]
  | |- emits _ (try_except _ _) => apply emits_try_except; [| intros ?]
  | |- emits _ (attempt _) => apply emits_attempt
  | |- emits _ (mret _) => apply emits_ret
  | |- emits _ (ret _) => apply emits_ret
  | |- emits _ (raise _) => apply emits_raise
  | |- emits _ (lift _) => apply emits_lift
  | |- emits _ (raise_for_status _) => apply emits_raise_for_status
  | |- emits _ (response_json _) => apply emits_response_json
  | |- emits _ (fromstring _) => apply emits_fromstring
  | |- emits _ (enter _) => apply emits_emit; emits_close
  | |- emits _ (out _) => apply emits_emit; emits_close
  | |- emits _ (sleep _) => apply emits_emit; emits_close
  | |- emits _ (send _) => apply emits_send; intros ?; emits_close
  | |- emits _ (session_get _ _) => apply emits_send; intros ?; emits_close
  | |- emits _ (session_post _ _ _ _ _) => apply emits_send; intros ?; emits_close
  | |- emits _ (if ?b then _ else _) => destruct b
  | |- emits _ (match ?x with _ => _ end) => destruct x
  end.

Ltac emits_auto := repeat emits_step.

(** ** Methods without media operations *)

Section MethodEvents.
Variable self : WordPressMigrator.

Lemma get_post_by_url_no_media url :
  emits (λ e, media_call e = false) (get_post_by_url self url).
Proof. unfold get_post_by_url. emits_auto. Qed.

Lemma create_post_no_media post :
  emits (λ e, media_call e = false) (create_post self post).
Proof. unfold create_post. emits_auto. Qed.

End MethodEvents.

(** ** Stepping through a run *)

Lemma bind_lift {A B} (r : Res A) (k : A → M B) srv h :
  (lift r ≫= k) srv h =
  match r with
  | Ok a => k a srv h
  | Raise e => (Some (Raise e), [])
  end.
Proof.
  rewrite bind_run. destruct r as [a|e]; simpl; try done.
  rewrite app_nil_r. by destruct (k a srv h).
Qed.

Lemma bind_ret {A B} (a : A) (k : A → M B) srv h :
  (mret a ≫= k) srv h = k a srv h.
Proof. apply (bind_lift (Ok a)). Qed.

Lemma bind_emit {B} (e : Event) (k : unit → M B) srv h :
  (emit e ≫= k) srv h = ((k tt srv (h ++ [e])).1, e :: (k tt srv (h ++ [e])).2).
Proof. rewrite bind_run. simpl. by destruct (k tt srv (h ++ [e])). Qed.

Lemma bind_out {B} (m : Msg) (k : unit → M B) srv h :
  (out m ≫= k) srv h =
  ((k tt srv (h ++ [Out m])).1, Out m :: (k tt srv (h ++ [Out m])).2).
Proof. apply bind_emit. Qed.

Lemma bind_enter {B} (c : Call) (k : unit → M B) srv h :
  (enter c ≫= k) srv h =
  ((k tt srv (h ++ [Enter c])).1, Enter c :: (k tt srv (h ++ [Enter c])).2).
Proof. apply bind_emit. Qed.

(** The events of a computation come first. *)
Lemma bind_events {A B} (m : M A) (k : A → M B) srv h :
  ∃ tl, ((m ≫= k) srv h).2 = (m srv h).2 ++ tl.
Proof.
  rewrite bind_run. destruct (m srv h) as [[[a|e]|] e1]; cbn.
  - destruct (k a srv (h ++ e1)) as [r e2]. by exists e2.
  - exists []. by rewrite app_nil_r.
  - exists []. by rewrite app_nil_r.
Qed.

Lemma try_except_events {A} (m : M A) hd srv h :
  ∃ tl, (try_except m hd srv h).2 = (m srv h).2 ++ tl.
Proof.
  unfold try_except. destruct (m srv h) as [[[a|e]|] e1]; cbn.
  - exists []. by rewrite app_nil_r.
  - destruct (hd e srv (h ++ e1)) as [r e2]. by exists e2.
  - exists []. by rewrite app_nil_r.
Qed.

Section Transfer.
Variable self : WordPressMigrator.

Lemma get_media_no_link url :
  emits (λ e, link_call e = false) (get_media self url).
Proof. unfold get_media. emits_auto. Qed.

(** [upload_media] without content: the guard raises before the request. *)
Lemma upload_media_empty media_content filename srv h :
  bytes_truthy media_content = false →
  upload_media self media_content filename srv h =
    (Some (Raise (ValueError "No media content provided")),
     [ Enter (CUploadMedia media_content filename);
       Out (ErrUploadMedia (ValueError "No media content provided")) ]).
Proof.
  intros H. unfold upload_media, enter. rewrite bind_emit.
  unfold try_except. rewrite bind_run, H. reflexivity.
Qed.

End Transfer.

(** ** Computations that end, and computations that return *)

Lemma returns_halts {A} (m : M A) : returns m → halts m.
Proof. intros H srv h. destruct (H srv h) as [a ->]. done. Qed.

Lemma halts_ret {A} (a : A) : halts (mret a).
Proof. done. Qed.

Lemma halts_raise {A} e : halts (@raise A e).
Proof. done. Qed.

Lemma halts_lift {A} (r : Res A) : halts (lift r).
Proof. done. Qed.

Lemma halts_emit e : halts (emit e).
Proof. done. Qed.

Lemma halts_send rq : halts (send rq).
Proof. intros srv h. unfold send. by destruct (srv h rq). Qed.

Lemma halts_bind {A B} (m : M A) (k : A → M B) :
  halts m → (∀ a, halts (k a)) → halts (m ≫= k).
Proof.
  intros Hm Hk srv h. rewrite bind_run. specialize (Hm srv h).
  destruct (m srv h) as [[[a|e]|] e1]; simpl in *; try done.
  specialize (Hk a srv (h ++ e1)). by destruct (k a srv (h ++ e1)).
Qed.

Lemma halts_try_except {A} (m : M A) hd :
  halts m → (∀ e, halts (hd e)) → halts (try_except m hd).
Proof.
  intros Hm Hh srv h. unfold try_except. specialize (Hm srv h).
  destruct (m srv h) as [[[a|e]|] e1]; simpl in *; try done.
  specialize (Hh e srv (h ++ e1)). by destruct (hd e srv (h ++ e1)).
Qed.

Lemma halts_attempt {A} (m : M A) : halts m → halts (attempt m).
Proof.
  intros Hm. apply halts_try_except.
  - apply halts_bind; [done | intros; apply halts_ret].
  - intros; apply halts_ret.
Qed.

Lemma halts_for_each {A} (l : list A) body :
  (∀ x, halts (body x)) → halts (for_each l body).
Proof.
  intros Hb. induction l as [|x l IH]; simpl.
  - apply halts_ret.
  - apply halts_bind; [apply Hb | intros; apply IH].
Qed.

Lemma halts_raise_for_status r : halts (raise_for_status r).
Proof. unfold raise_for_status. by destruct (_ && _). Qed.

Lemma halts_response_json r : halts (response_json r).
Proof. unfold response_json. by destruct (json_body r). Qed.

Lemma halts_fromstring r : halts (fromstring r).
Proof. unfold fromstring. by destruct (xml_body r). Qed.

Ltac halts_step :=
  lazymatch goal with
  | |- halts (mbind _ _) => apply halts_bind; [| intros ?]
  | |- halts (try_except _ _) => apply halts_try_except; [| intros ?]
  | |- halts (attempt _) => apply halts_attempt
  | |- halts (mret _) => apply halts_ret
  | |- halts (ret _) => apply halts_ret
  | |- halts (raise _) => apply halts_raise
  | |- halts (lift _) => apply halts_lift
  | |- halts (raise_for_status _) => apply halts_raise_for_status
  | |- halts (response_json _) => apply halts_response_json
  | |- halts (fromstring _) => apply halts_fromstring
  | |- halts (enter _) => apply halts_emit
  | |- halts (out _) => apply halts_emit
  | |- halts (sleep _) => apply halts_emit
  | |- halts (send _) => apply halts_send
  | |- halts (session_get _ _) => apply halts_send
  | |- halts (session_post _ _ _ _ _) => apply halts_send
  | |- halts (if ?b then _ else _) => destruct b
  | |- halts (match ?x with _ => _ end) => destruct x
  end.

Ltac halts_auto := repeat halts_step.

Lemma returns_ret {A} (a : A) : returns (mret a).
Proof. intros srv h. by exists a. Qed.

Lemma returns_emit e : returns (emit e).
Proof. intros srv h. by exists tt. Qed.

Lemma returns_bind {A B} (m : M A) (k : A → M B) :
  returns m → (∀ a, returns (k a)) → returns (m ≫= k).
Proof.
  intros Hm Hk srv h. rewrite bind_run. destruct (Hm srv h) as [a Ha].
  destruct (m srv h) as [r e1]; simpl in Ha; subst r.
  destruct (Hk a srv (h ++ e1)) as [b Hb].
  destruct (k a srv (h ++ e1)) as [r e2]; simpl in *. by exists b.
Qed.

(** A [try] whose body ends and whose handler returns, returns. *)
Lemma returns_try_except {A} (m : M A) hd :
  halts m → (∀ e, returns (hd e)) → returns (try_except m hd).
Proof.
  intros Hm Hh srv h. unfold try_except. specialize (Hm srv h).
  destruct (m srv h) as [[[a|e]|] e1]; simpl in *; try done.
  - by exists a.
  - destruct (Hh e srv (h ++ e1)) as [b Hb].
    destruct (hd e srv (h ++ e1)) as [r e2]; simpl in *. by exists b.
Qed.

Section Halting.
Variable self : WordPressMigrator.

Lemma get_media_halts url : halts (get_media self url).
Proof. unfold get_media. halts_auto. Qed.

Lemma upload_media_halts media_content filename :
  halts (upload_media self media_content filename).
Proof. unfold upload_media. halts_auto. Qed.

Lemma set_featured_image_halts post_id media_id :
  halts (set_featured_image self post_id media_id).
Proof. unfold set_featured_image. halts_auto. Qed.

Lemma create_post_halts post : halts (create_post self post).
Proof. unfold create_post. halts_auto. Qed.

Lemma get_post_by_url_returns url : returns (get_post_by_url self url).
Proof.
  unfold get_post_by_url. apply returns_bind; [apply returns_emit | intros _].
  apply returns_try_except.
  - halts_auto.
  - intros e. apply returns_bind; [apply returns_emit | intros; apply returns_ret].
Qed.

Lemma handle_featured_image_371_returns post new_post_id :
  returns (handle_featured_image_371 self post new_post_id).
Proof.
  unfold handle_featured_image_371.
  apply returns_bind; [apply returns_emit | intros _].
  apply returns_try_except; [| intros; apply returns_emit].
  repeat first
    [ apply get_media_halts | apply upload_media_halts
    | apply set_featured_image_halts | halts_step ].
Qed.

End Halting.

Section FeaturedImage.
Variable self : WordPressMigrator.

(** When the download yields [None], the handler of lines 371-386 goes on to
    [upload_media], whose guard raises: the link is never attempted. *)
Lemma handle_featured_image_unreachable srv :
  (∀ u h, (get_media self u srv h).1 = Some (Ok None)) →
  ∀ post new_post_id h,
    Forall (λ e, link_call e = false)
           (handle_featured_image self post new_post_id srv h).2.
Proof.
  intros Hgm post new_post_id h.
  unfold handle_featured_image, handle_featured_image_371, enter.
  rewrite bind_emit. cbn [snd]. constructor; [done|].
  generalize (h ++ [Enter (CHandleFeaturedImage post new_post_id)]). clear h. intros h.
  unfold try_except. rewrite bind_lift.
  destruct (has_featured_media post) as [[|]|e]; [| by repeat constructor ..].
  rewrite bind_lift.
  destruct (_ ≫= _) as [media_url|e]; [| by repeat constructor].
  rewrite bind_lift.
  destruct (Py.split media_url "/") as [pieces|e]; [| by repeat constructor].
  unfold out. rewrite bind_emit. rewrite bind_run.
  set (u := match media_url with PStr u => u | _ => "" end).
  set (h1 := h ++ [_]).
  pose proof (Hgm u h1) as Hr. pose proof (get_media_no_link self u srv h1) as He.
  destruct (get_media self u srv h1) as [r e1]. simpl in Hr, He. subst r.
  rewrite bind_emit. rewrite bind_run.
  rewrite upload_media_empty by done. cbn.
  constructor; [done|]. rewrite !Forall_app.
  split_and!; [done | by repeat constructor ..].
Qed.

End FeaturedImage.

(** ** One item *)

Section Item.
Variable self : WordPressMigrator.

Lemma raise_for_status_run {B} r (k : unit → M B) srv h :
  (raise_for_status r ≫= k) srv h =
  if (400 <=? status_code r) && (status_code r <? 600)
  then (Some (Raise (HTTPError (status_code r))), [])
  else k tt srv h.
Proof.
  unfold raise_for_status. destruct (_ && _).
  - reflexivity.
  - apply bind_ret.
Qed.

Lemma send_run {B} rq (k : Response → M B) srv h :
  (send rq ≫= k) srv h =
  match srv h rq with
  | Responded r =>
      ((k r srv (h ++ [Http rq (Responded r)])).1,
       Http rq (Responded r) :: (k r srv (h ++ [Http rq (Responded r)])).2)
  | NetError => (Some (Raise RequestException), [Http rq NetError])
  end.
Proof.
  rewrite bind_run. unfold send. destruct (srv h rq) as [r|]; [|done].
  by destruct (k r srv _).
Qed.

Lemma response_json_run r srv h :
  response_json r srv h =
  (Some (match json_body r with Some v => Ok v | None => Raise JSONDecodeError end), []).
Proof. unfold response_json. by destruct (json_body r). Qed.

(** A [create_post] that returns has sent one request, and returns what the
    destination answered. *)
Lemma create_post_ok post srv h new_post ev :
  create_post self post srv h = (Some (Ok new_post), ev) →
  ∃ e, ev = [Enter (CCreatePost post); e] ∧ created self new_post e.
Proof.
  unfold create_post, enter. rewrite bind_emit.
  set (h1 := h ++ [_]). unfold try_except. rewrite bind_lift.
  destruct (new_post_payload post) as [payload|e]; [|done].
  rewrite send_run. destruct (srv h1 _) as [r|]; [|done].
  rewrite raise_for_status_run.
  destruct (_ && _) eqn:Hst; [done|].
  rewrite response_json_run. destruct (json_body r) as [v|] eqn:Hj; [|done].
  cbn. intros [= <- <-]. eexists. split; [done|].
  by exists payload, r.
Qed.

(** A [create_post] that raises has printed its error, and only then. *)
Lemma create_post_raise post srv h e ev :
  create_post self post srv h = (Some (Raise e), ev) → Out (ErrCreatePost e) ∈ ev.
Proof.
  unfold create_post, enter. rewrite bind_emit.
  set (h1 := h ++ [_]). unfold try_except. rewrite bind_lift.
  destruct (new_post_payload post) as [payload|e']; cbn.
  - rewrite send_run. destruct (srv h1 _) as [r|]; cbn.
    + rewrite raise_for_status_run. destruct (_ && _) eqn:Hst; cbn.
      * intros [= <- <-]. set_solver.
      * rewrite response_json_run. destruct (json_body r); cbn; [done|].
        intros [= <- <-]. set_solver.
    + intros [= <- <-]. set_solver.
  - intros [= <- <-]. set_solver.
Qed.

End Item.

Section ItemShape.
Variable self : WordPressMigrator.

Lemma handle_featured_image_links_to post new_post_id :
  emits (links_to new_post_id) (handle_featured_image self post new_post_id).
Proof.
  unfold handle_featured_image, handle_featured_image_371, get_media, upload_media,
    set_featured_image, links_to.
  emits_auto.
Qed.

Lemma handle_featured_image_no_create_failure post new_post_id :
  emits (λ e, create_failure e = false) (handle_featured_image self post new_post_id).
Proof.
  unfold handle_featured_image, handle_featured_image_371, get_media, upload_media,
    set_featured_image.
  emits_auto.
Qed.

Lemma get_post_by_url_no_create_failure url :
  emits (λ e, create_failure e = false) (get_post_by_url self url).
Proof. unfold get_post_by_url. emits_auto. Qed.

(** After a [create_post] that returned [new_post]: the rest of the loop
    body ends the item normally, whatever the media steps did, unless the
    record has no [id]. *)
Lemma transfer_run post new_post srv h :
  (new_post_id ← lift (Py.getitem new_post "id");
   handle_featured_image self post new_post_id;;
   out Advance;; sleep 1) srv h =
  match Py.getitem new_post "id" with
  | Ok new_post_id =>
      (Some (Ok tt),
       (handle_featured_image self post new_post_id srv h).2 ++ [Out Advance; Sleep 1])
  | Raise e => (Some (Raise e), [])
  end.
Proof.
  rewrite bind_lift. destruct (Py.getitem new_post "id") as [new_post_id|e]; [|done].
  rewrite bind_run.
  destruct (handle_featured_image_371_returns self post new_post_id srv h) as [[] Hr].
  fold (handle_featured_image self) in Hr.
  destruct (handle_featured_image self post new_post_id srv h) as [r evh].
  simpl in Hr. subst r. unfold out, sleep. by rewrite bind_emit.
Qed.

Lemma created_quiet new_post c :
  created self new_post c → media_call c = false ∧ create_failure c = false.
Proof. by intros (?&?&->&_). Qed.

(** The events of an item whose create request was answered. *)
Lemma shape_created a post c new_post new_post_id srv h :
  Forall (λ e, media_call e = false) a →
  Forall (λ e, create_failure e = false) a →
  created self new_post c →
  Py.getitem new_post "id" = Ok new_post_id →
  item_shape self
    (a ++ [Enter (CCreatePost post); c] ++
     (handle_featured_image self post new_post_id srv h).2 ++ [Out Advance; Sleep 1]).
Proof.
  intros Ha Hf Hc Hid. destruct (created_quiet _ _ Hc) as [Hc1 Hc2].
  right. exists (a ++ [Enter (CCreatePost post); c]), new_post, new_post_id,
    (handle_featured_image self post new_post_id srv h).2.
  split_and!.
  - by rewrite <- !app_assoc.
  - apply Forall_app. split; [done | by repeat constructor].
  - apply Exists_app. right. by repeat constructor.
  - done.
  - apply handle_featured_image_links_to.
  - rewrite !Forall_app. split_and!; try done.
    + by repeat constructor.
    + apply handle_featured_image_no_create_failure.
    + by repeat constructor.
Qed.

(** A loop body is a [try]: when its body did not finish the item, the
    handler only prints. *)
Lemma item_try {A} (body : M A) hd srv h :
  ((∃ a, (body srv h).1 = Some (Ok a)) ∧ item_shape self (body srv h).2) ∨
  Forall (λ e, media_call e = false) (body srv h).2 →
  (∀ e, emits (λ e, media_call e = false) (hd e)) →
  item_shape self (try_except body hd srv h).2.
Proof.
  intros Hb Hh. unfold try_except.
  destruct (body srv h) as [[[a|e]|] e1]; simpl in *.
  - destruct Hb as [[_ ?]|?]; [done | by left].
  - destruct Hb as [[[? [=]] _]|Hb]. left.
    specialize (Hh e srv (h ++ e1)). destruct (hd e srv (h ++ e1)) as [r e2].
    simpl in *. by apply Forall_app.
  - destruct Hb as [[[? [=]] _]|Hb]. by left.
Qed.

(** The body of the loop over the posts of the API. *)
Lemma migrate_post_shape post srv h :
  item_shape self (migrate_post self post srv h).2.
Proof.
  unfold migrate_post. apply item_try; [| intros e; emits_auto].
  rewrite bind_lift. destruct (_ ≫= _) as [title|e]; [| by right].
  rewrite bind_out. set (h1 := h ++ [_]). rewrite bind_run.
  pose proof (create_post_no_media self post srv h1) as Hq.
  destruct (create_post self post srv h1) as [[[new_post|e]|] ev1] eqn:Hc;
    simpl in Hq.
  - destruct (create_post_ok _ _ _ _ _ _ Hc) as (c & -> & Hcr).
    rewrite transfer_run.
    destruct (Py.getitem new_post "id") as [new_post_id|e] eqn:Hid.
    + left. split; [by eexists|]. cbv [fst snd].
      apply (shape_created [Out (LogMigrating title)] post c new_post new_post_id);
        by repeat constructor.
    + destruct (created_quiet _ _ Hcr). right. by repeat constructor.
  - right. by constructor.
  - right. by constructor.
Qed.

(** The body of the loop over the URLs of the sitemaps. *)
Lemma migrate_url_shape url srv h :
  item_shape self (migrate_url self url srv h).2.
Proof.
  unfold migrate_url. apply item_try; [| intros e; emits_auto].
  rewrite bind_out. set (h1 := h ++ [_]). rewrite bind_run.
  pose proof (get_post_by_url_no_media self url srv h1) as Hm.
  pose proof (get_post_by_url_no_create_failure url srv h1) as Hf.
  destruct (get_post_by_url_returns self url srv h1) as [post Hp].
  destruct (get_post_by_url self url srv h1) as [r ev0]. simpl in Hm, Hf, Hp. subst r.
  destruct (Py.truthy post); cbn [negb].
  - rewrite bind_run.
    pose proof (create_post_no_media self post srv (h1 ++ ev0)) as Hq.
    destruct (create_post self post srv (h1 ++ ev0)) as [[[new_post|e]|] ev1] eqn:Hc;
      simpl in Hq.
    + destruct (create_post_ok _ _ _ _ _ _ Hc) as (c & -> & Hcr).
      rewrite transfer_run.
      destruct (Py.getitem new_post "id") as [new_post_id|e] eqn:Hid.
      * left. split; [by eexists|]. cbv [fst snd].
        pose proof (shape_created (Out (LogProcessing url) :: ev0) post c new_post
                      new_post_id srv ((h1 ++ ev0) ++ [Enter (CCreatePost post); c])) as H.
        rewrite <- !app_assoc in H. rewrite <- !app_assoc. apply H; try done.
        all: by constructor.
      * destruct (created_quiet _ _ Hcr). right. cbn.
        constructor; [done|]. rewrite !Forall_app. split_and!; try done.
        all: by repeat constructor.
    + right. cbn. constructor; [done|]. by apply Forall_app.
    + right. cbn. constructor; [done|]. by apply Forall_app.
  - right. cbn. constructor; [done|]. rewrite !Forall_app. split; [done|].
    by repeat constructor.
Qed.

End ItemShape.

Lemma migrate_item_shape self item srv h :
  item_shape self (migrate_item self item srv h).2.
Proof. destruct item; [apply migrate_url_shape | apply migrate_post_shape]. Qed.

(** An event that [P] singles out, after a prefix without such events, lies
    beyond the prefix. *)
Lemma split_beyond {A} (P : A → bool) (a rest pre suf : list A) (e : A) :
  Forall (λ x, P x = false) a → P e = true →
  a ++ rest = pre ++ e :: suf →
  ∃ pre', pre = a ++ pre' ∧ rest = pre' ++ e :: suf.
Proof.
  revert pre. induction a as [|x a IH]; intros pre Ha He Heq.
  - by exists pre.
  - inversion Ha as [|?? Hx Ha']; subst. destruct pre as [|y pre]; simpl in Heq.
    + injection Heq as -> _. congruence.
    + injection Heq as -> Heq. destruct (IH pre Ha' He Heq) as (pre' & -> & ->).
      by exists pre'.
Qed.

Section ItemRuns.
Variable self : WordPressMigrator.

(** The API loop body, when the create request is answered with a record
    that has an [id]. *)
Lemma migrate_post_created post title new_post new_post_id ev1 srv h :
  (t ← Py.getitem post "title"; Py.getitem t "rendered") = Ok title →
  create_post self post srv (h ++ [Out (LogMigrating title)]) = (Some (Ok new_post), ev1) →
  Py.getitem new_post "id" = Ok new_post_id →
  migrate_post self post srv h =
    (Some (Ok tt),
     Out (LogMigrating title) :: ev1 ++
     (handle_featured_image self post new_post_id srv
        ((h ++ [Out (LogMigrating title)]) ++ ev1)).2 ++ [Out Advance; Sleep 1]).
Proof.
  intros Ht Hc Hid. unfold migrate_post, try_except.
  rewrite bind_lift, Ht, bind_out, bind_run, Hc, transfer_run, Hid. reflexivity.
Qed.

(** The sitemap loop body, likewise. *)
Lemma migrate_url_created url post ev0 new_post new_post_id ev1 srv h :
  get_post_by_url self url srv (h ++ [Out (LogProcessing url)]) = (Some (Ok post), ev0) →
  Py.truthy post = true →
  create_post self post srv ((h ++ [Out (LogProcessing url)]) ++ ev0)
    = (Some (Ok new_post), ev1) →
  Py.getitem new_post "id" = Ok new_post_id →
  migrate_url self url srv h =
    (Some (Ok tt),
     Out (LogProcessing url) :: ev0 ++ ev1 ++
     (handle_featured_image self post new_post_id srv
        (((h ++ [Out (LogProcessing url)]) ++ ev0) ++ ev1)).2 ++ [Out Advance; Sleep 1]).
Proof.
  intros Hp Ht Hc Hid. unfold migrate_url, try_except.
  rewrite bind_out, bind_run, Hp, Ht. cbn [negb].
  rewrite bind_run, Hc, transfer_run, Hid. reflexivity.
Qed.

End ItemRuns.

(** ** The paginated enumerator *)

Section Enumerator.
Variable self : WordPressMigrator.
Variable srv : Server.

Lemma status_ok_not_400 r : status_ok r → (status_code r =? 400) = false.
Proof. unfold status_ok. intros H. apply Z.eqb_neq. intros Heq. rewrite Heq in H. done. Qed.

(** One turn on a page with items. *)
Lemma fetch_pages_next fuel page all_posts h r items :
  srv h (page_request self page) = Responded r →
  page_of r items →
  fetch_pages self (S fuel) page all_posts srv h =
    ((fetch_pages self fuel (page + 1) (all_posts ++ items) srv
        (h ++ [Http (page_request self page) (Responded r); Sleep 1])).1,
     Http (page_request self page) (Responded r) :: Sleep 1 ::
     (fetch_pages self fuel (page + 1) (all_posts ++ items) srv
        (h ++ [Http (page_request self page) (Responded r); Sleep 1])).2).
Proof.
  intros Hr (Hst & Hj & Hne). cbn [fetch_pages]. rewrite bind_run.
  unfold try_except, fetch_page. rewrite send_run, Hr.
  rewrite (status_ok_not_400 _ Hst). rewrite raise_for_status_run, Hst.
  rewrite bind_run, response_json_run, Hj.
  destruct items as [|x items]; [done|]. cbn [Py.truthy negb app].
  rewrite bind_lift. cbn [Py.iterate]. unfold sleep. rewrite bind_emit. cbn.
  by destruct (fetch_pages self fuel (page + 1) (all_posts ++ x :: items) srv _).
Qed.

(** The turn that ends the enumeration normally. *)
Lemma fetch_pages_end fuel page all_posts h r :
  srv h (page_request self page) = Responded r →
  end_of_posts r →
  fetch_pages self (S fuel) page all_posts srv h =
    (Some (Ok all_posts), [Http (page_request self page) (Responded r)]).
Proof.
  intros Hr Hend. cbn [fetch_pages]. rewrite bind_run.
  unfold try_except, fetch_page. rewrite send_run, Hr.
  destruct Hend as [H400|[Hst Hj]].
  - rewrite H400. reflexivity.
  - rewrite (status_ok_not_400 _ Hst). rewrite raise_for_status_run, Hst.
    rewrite bind_run, response_json_run, Hj. reflexivity.
Qed.

(** The turn that ends the enumeration on an error. *)
Lemma fetch_pages_fail fuel page all_posts h res e :
  srv h (page_request self page) = res →
  fetch_fails res e →
  fetch_pages self (S fuel) page all_posts srv h =
    (Some (Ok all_posts),
     [Http (page_request self page) res; Out (WarnFetchPage page e)]).
Proof.
  intros Hr Hf. cbn [fetch_pages]. rewrite bind_run.
  unfold try_except, fetch_page. rewrite send_run, Hr.
  destruct Hf as [|r Hs|r Hst Hj].
  - reflexivity.
  - replace (status_code r =? 400) with false by (symmetry; apply Z.eqb_neq; lia).
    rewrite raise_for_status_run.
    replace ((400 <=? status_code r) && (status_code r <? 600)) with true; [done|].
    symmetry. apply andb_true_iff. split; [apply Z.leb_le | apply Z.ltb_lt]; lia.
  - rewrite (status_ok_not_400 _ Hst). rewrite raise_for_status_run, Hst.
    rewrite bind_run, response_json_run, Hj. reflexivity.
Qed.

(** The turns on the pages that carry items. *)
Lemma fetch_pages_through (pages : list (Response * list PyVal)) :
  ∀ fuel page all_posts h,
    Forall (λ p, page_of p.1 p.2) pages →
    (∀ h i p, pages !! i = Some p →
       srv h (page_request self (page + Z.of_nat i)) = Responded p.1) →
    fetch_pages self (List.length pages + fuel) page all_posts srv h =
      ((fetch_pages self fuel (page + Z.of_nat (List.length pages))
          (all_posts ++ List.concat pages.*2) srv (h ++ page_trace self page pages.*1)).1,
       page_trace self page pages.*1 ++
       (fetch_pages self fuel (page + Z.of_nat (List.length pages))
          (all_posts ++ List.concat pages.*2) srv (h ++ page_trace self page pages.*1)).2).
Proof.
  induction pages as [|[r items] pages IH]; intros fuel page all_posts h Hp Hs.
  - cbn. rewrite Z.add_0_r, !app_nil_r. by destruct (fetch_pages _ _ _ _ _ _).
  - inversion Hp as [|?? Hp1 Hp2]; subst. cbn [List.length Nat.add].
    rewrite (fetch_pages_next _ _ _ _ r items).
    + rewrite IH.
      * cbn [fmap list_fmap page_trace List.concat fst snd app].
        replace (page + 1 + Z.of_nat (List.length pages))
          with (page + Z.of_nat (S (List.length pages))) by lia.
        rewrite <- !app_assoc. reflexivity.
      * done.
      * intros h' i p Hi. replace (page + 1 + Z.of_nat i) with (page + Z.of_nat (S i)) by lia.
        by apply Hs.
    + specialize (Hs h 0%nat (r, items) eq_refl). by rewrite Z.add_0_r in Hs.
    + done.
Qed.

End Enumerator.

(** C6.  [get_all_posts_via_api] asks for page 1, 2, ... with 100 items per
    page; on pages that carry items it appends them in the order received
    and sleeps one second before the next request; a page answered with
    status 400 or with zero items ends the enumeration normally: the result
    is the concatenation of the pages, no warning is printed, and the
    requests are exactly one per page, the ending one included. *)
Theorem get_all_posts_via_api_pages
    (self : WordPressMigrator) (srv : Server)
    (pages : list (Response * list PyVal)) (last : Response) :
  Forall (λ p, page_of p.1 p.2) pages →
  end_of_posts last →
  (∀ h i p, pages !! i = Some p →
     srv h (page_request self (1 + Z.of_nat i)) = Responded p.1) →
  (∀ h, srv h (page_request self (1 + Z.of_nat (List.length pages))) = Responded last) →
  ∀ fuel h, (List.length pages < fuel)%nat →
    get_all_posts_via_api self fuel srv h =
      (Some (Ok (List.concat pages.*2)),
       Enter CGetAllPostsViaApi :: page_trace self 1 pages.*1 ++
       [Http (page_request self (1 + Z.of_nat (List.length pages))) (Responded last)])
    ∧ ∀ page, rq_params (page_request self page) =
        [ ("page", PInt page); ("per_page", PInt 100);
          ("status", PStr "publish"); ("_embed", PInt 1) ].
Proof.
  intros Hp Hend Hs Hl fuel h Hfuel. split; [|done].
  unfold get_all_posts_via_api. rewrite bind_enter.
  destruct fuel as [|fuel]; [lia|].
  replace (S fuel) with (List.length pages + S (fuel - List.length pages))%nat by lia.
  rewrite (fetch_pages_through self srv pages) by done.
  rewrite (fetch_pages_end self srv _ _ _ _ last) by done.
  reflexivity.
Qed.


(** ** The events of a class that a computation emits, in order *)

Lemma filter_quiet (P : Event → bool) evs :
  Forall (λ e, P e = false) evs → List.filter P evs = [].
Proof.
  induction 1 as [|e evs He _ IH]; [done|]. cbn. by rewrite He.
Qed.

Section CallsOf.
Context (P : Event → bool).

Lemma calls_of_quiet {A} (m : M A) : emits (λ e, P e = false) m → calls_of P m [].
Proof. intros H srv h. apply filter_quiet, H. Qed.

(** The calls of [m], when what follows is quiet. *)
Lemma calls_of_bind_l {A B} (m : M A) (k : A → M B) l :
  calls_of P m l → (∀ a, emits (λ e, P e = false) (k a)) → calls_of P (m ≫= k) l.
Proof.
  intros Hm Hk srv h. rewrite bind_run. specialize (Hm srv h).
  destruct (m srv h) as [[[a|e]|] e1]; simpl in *; try done.
  specialize (Hk a srv (h ++ e1)). destruct (k a srv (h ++ e1)) as [r e2].
  simpl in *. rewrite List.filter_app, Hm, (filter_quiet _ _ Hk). apply app_nil_r.
Qed.

(** The calls of [m] and then of what follows, when [m] returns. *)
Lemma calls_of_bind {A B} (m : M A) (k : A → M B) l1 l2 :
  calls_of P m l1 → returns m → (∀ a, calls_of P (k a) l2) →
  calls_of P (m ≫= k) (l1 ++ l2).
Proof.
  intros Hm Hr Hk srv h. rewrite bind_run. specialize (Hm srv h).
  destruct (Hr srv h) as [a Ha].
  destruct (m srv h) as [r e1]; simpl in *; subst r.
  specialize (Hk a srv (h ++ e1)). destruct (k a srv (h ++ e1)) as [r e2].
  simpl in *. by rewrite List.filter_app, Hm, Hk.
Qed.

Lemma calls_of_try_except {A} (m : M A) hd l :
  calls_of P m l → (∀ e, emits (λ e, P e = false) (hd e)) →
  calls_of P (try_except m hd) l.
Proof.
  intros Hm Hh srv h. unfold try_except. specialize (Hm srv h).
  destruct (m srv h) as [[[a|e]|] e1]; simpl in *; try done.
  specialize (Hh e srv (h ++ e1)). destruct (hd e srv (h ++ e1)) as [r e2].
  simpl in *. rewrite List.filter_app, Hm, (filter_quiet _ _ Hh). apply app_nil_r.
Qed.

(** An event outside the class, and then [k]. *)
Lemma calls_of_skip {B} e (k : unit → M B) l :
  P e = false → calls_of P (k tt) l → calls_of P (emit e ≫= k) l.
Proof.
  intros He Hk srv h. rewrite bind_emit. cbn. rewrite He. apply Hk.
Qed.

(** An event of the class, and then a quiet [k]. *)
Lemma calls_of_first {B} e (k : unit → M B) :
  P e = true → emits (λ e, P e = false) (k tt) → calls_of P (emit e ≫= k) [e].
Proof.
  intros He Hk srv h. rewrite bind_emit. cbn. rewrite He.
  by rewrite (filter_quiet _ _ (Hk srv _)).
Qed.

(** A loop whose body always returns: the calls of the turns, in order. *)
Lemma calls_of_for_each {A} (l : list A) body (f : A → list Event) :
  (∀ x, calls_of P (body x) (f x)) → (∀ x, returns (body x)) →
  calls_of P (for_each l body) (List.concat (map f l)).
Proof.
  intros Hb Hr. induction l as [|x l IH]; cbn [for_each map List.concat].
  - by apply calls_of_quiet, emits_ret.
  - apply calls_of_bind; [apply Hb | apply Hr | intros _; apply IH].
Qed.

End CallsOf.

Section Strategies.
Variable self : WordPressMigrator.

Local Abbreviation quiet := (λ e : Event, strategy_call e = false).

Lemma probe_sitemaps_quiet paths acc : emits quiet (probe_sitemaps self paths acc).
Proof.
  revert acc. induction paths as [|p paths IH]; intros acc; cbn [probe_sitemaps].
  - emits_auto.
  - apply emits_bind; [unfold probe_sitemap; emits_auto | intros found; apply IH].
Qed.

Lemma read_index_quiet entries urls : emits quiet (read_index self entries urls).
Proof.
  revert urls. induction entries as [|s entries IH]; intros urls; cbn [read_index].
  - emits_auto.
  - apply emits_bind; [unfold read_entry; emits_auto |].
    intros [e|urls']; [emits_auto | apply IH].
Qed.

Lemma read_sitemap_quiet sitemap_url urls :
  emits quiet (read_sitemap self sitemap_url urls).
Proof.
  unfold read_sitemap. apply emits_bind; [emits_auto|].
  intros [e|root]; [emits_auto|].
  destruct (PyStr.contains _ _); [| emits_auto].
  apply emits_bind; [apply read_index_quiet | intros [urls' [e|]]; emits_auto].
Qed.

Lemma read_sitemaps_quiet sitemap_urls urls :
  emits quiet (read_sitemaps self sitemap_urls urls).
Proof.
  revert urls. induction sitemap_urls as [|u l IH]; intros urls; cbn [read_sitemaps].
  - emits_auto.
  - apply emits_bind; [apply read_sitemap_quiet | intros; apply IH].
Qed.

Lemma get_sitemap_urls_quiet : emits quiet (get_sitemap_urls self).
Proof.
  unfold get_sitemap_urls, get_all_sitemaps.
  apply emits_bind; [emits_auto | intros _].
  apply emits_bind; [apply emits_bind; [emits_auto | intros; apply probe_sitemaps_quiet] |].
  intros [|u l]; [emits_auto|].
  apply emits_bind; [apply read_sitemaps_quiet | intros; emits_auto].
Qed.

Lemma create_post_quiet post : emits quiet (create_post self post).
Proof. unfold create_post. emits_auto. Qed.

Lemma handle_featured_image_quiet post new_post_id :
  emits quiet (handle_featured_image self post new_post_id).
Proof.
  unfold handle_featured_image, handle_featured_image_371, get_media, upload_media,
    set_featured_image.
  emits_auto.
Qed.

Lemma migrate_post_quiet post : emits quiet (migrate_post self post).
Proof.
  unfold migrate_post.
  repeat first [ apply create_post_quiet | apply handle_featured_image_quiet | emits_step ].
Qed.

Lemma fetch_pages_quiet fuel page all_posts :
  emits quiet (fetch_pages self fuel page all_posts).
Proof.
  revert page all_posts. induction fuel as [|fuel IH]; intros page all_posts;
    cbn [fetch_pages].
  - apply emits_diverge.
  - apply emits_bind; [unfold fetch_page; emits_auto |].
    intros [|all_posts']; [emits_auto | apply IH].
Qed.

Lemma get_all_posts_via_api_calls fuel :
  calls_of strategy_call (get_all_posts_via_api self fuel) [Enter CGetAllPostsViaApi].
Proof.
  unfold get_all_posts_via_api, enter.
  apply calls_of_first; [done | apply fetch_pages_quiet].
Qed.

Lemma get_post_by_url_calls url :
  calls_of strategy_call (get_post_by_url self url) [Enter (CGetPostByUrl url)].
Proof.
  unfold get_post_by_url, enter.
  apply calls_of_first; [done | emits_auto].
Qed.

Lemma migrate_url_calls url :
  calls_of strategy_call (migrate_url self url) [Enter (CGetPostByUrl url)].
Proof.
  unfold migrate_url. apply calls_of_try_except; [| intros; emits_auto].
  apply calls_of_skip; [done|].
  apply (calls_of_bind_l _ _ _ _ (get_post_by_url_calls url)). intros post.
  repeat first [ apply create_post_quiet | apply handle_featured_image_quiet | emits_step ].
Qed.

Lemma migrate_url_returns url : returns (migrate_url self url).
Proof.
  unfold migrate_url. apply returns_try_except; [| intros; apply returns_emit].
  repeat first
    [ apply (returns_halts _ (get_post_by_url_returns self url))
    | apply create_post_halts
    | apply (returns_halts _ (handle_featured_image_371_returns self _ _))
    | halts_step ].
Qed.

End Strategies.

(** The first thing the sitemap loop does with a URL is to resolve it. *)
Lemma migrate_url_resolves_first (self : WordPressMigrator) url srv h :
  ∃ tl, (migrate_url self url srv h).2 =
        Out (LogProcessing url) :: Enter (CGetPostByUrl url) :: tl.
Proof.
  unfold migrate_url.
  match goal with
  | |- context [try_except ?b ?hd srv h] =>
      destruct (try_except_events b hd srv h) as [tl1 ->]
  end.
  rewrite bind_out. cbn [snd].
  match goal with
  | |- context [mbind ?k ?m srv ?h'] => destruct (bind_events m k srv h') as [tl2 ->]
  end.
  unfold get_post_by_url. rewrite bind_enter. cbn [snd]. by eexists.
Qed.


(** ** The index reader on a site that answers each URL always the same *)

Lemma bind_result {A B} (m : M A) (k : A → M B) srv h a :
  (m srv h).1 = Some (Ok a) →
  ((m ≫= k) srv h).1 = (k a srv (h ++ (m srv h).2)).1.
Proof.
  intros H. rewrite bind_run. destruct (m srv h) as [r e1]. simpl in *. subst r.
  by destruct (k a srv (h ++ e1)).
Qed.

Section StaticSite.
Variable self : WordPressMigrator.
Variable site : Site.

Lemma probe_sitemap_static sitemap h :
  (probe_sitemap self sitemap (static site) h).1 =
  Some (Ok (found site (source_url self +:+ sitemap))).
Proof.
  unfold probe_sitemap, try_except, session_get, found, get_request.
  rewrite send_run. unfold static. by destruct (site _).
Qed.

Lemma probe_sitemaps_static paths acc h :
  (probe_sitemaps self paths acc (static site) h).1 =
  Some (Ok (acc ++ List.filter (found site) (map (λ p, source_url self +:+ p) paths))).
Proof.
  revert acc h. induction paths as [|p paths IH]; intros acc h; cbn [probe_sitemaps].
  - cbn. by rewrite app_nil_r.
  - rewrite (bind_result _ _ _ _ _ (probe_sitemap_static p h)), IH.
    cbn [map List.filter].
    destruct (found site (source_url self +:+ p)); [|done].
    by rewrite <- app_assoc.
Qed.

Lemma read_entry_static entry urls h :
  (attempt (read_entry self entry urls) (static site) h).1 =
  Some (Ok (match entry_locs site entry with
            | Some l => inr (urls ∪ list_to_set l)
            | None => inl (entry_error site entry)
            end)).
Proof.
  unfold attempt, try_except, read_entry, entry_locs, entry_error.
  rewrite bind_run, bind_lift.
  destruct entry as [text|]; [|done].
  destruct (PyStr.contains "post" (PyStr.lower text)).
  - unfold session_get. rewrite send_run. unfold static, child_doc, get_request.
    destruct (site _) as [r|]; [|done]. unfold fromstring. rewrite bind_run.
    by destruct (xml_body r).
  - cbn. do 4 f_equal. set_solver.
Qed.

Lemma index_locs_cons entry entries :
  index_locs site (entry :: entries) =
  match entry_locs site entry with
  | Some l => l ++ index_locs site entries
  | None => []
  end.
Proof.
  unfold entry_locs. destruct entry as [text|]; [|done]. cbn [index_locs].
  destruct (PyStr.contains _ _); [|done]. by destruct (child_doc site text).
Qed.

Lemma read_index_static entries urls h :
  ∃ err, (read_index self entries urls (static site) h).1 =
         Some (Ok (urls ∪ list_to_set (index_locs site entries), err)).
Proof.
  revert urls h. induction entries as [|entry entries IH]; intros urls h.
  - exists None. cbn. do 3 f_equal. set_solver.
  - cbn [read_index]. rewrite index_locs_cons.
    rewrite (bind_result _ _ _ _ _ (read_entry_static entry urls h)).
    destruct (entry_locs site entry) as [l|].
    + destruct (IH (urls ∪ list_to_set l)
                  (h ++ (attempt (read_entry self entry urls) (static site) h).2))
        as [err Herr].
      exists err. rewrite Herr. do 3 f_equal. set_solver.
    + eexists. cbn. do 3 f_equal. set_solver.
Qed.

Lemma read_sitemap_static sitemap_url urls h :
  (read_sitemap self sitemap_url urls (static site) h).1 =
  Some (Ok (urls ∪ list_to_set (sitemap_locs site sitemap_url))).
Proof.
  unfold read_sitemap, sitemap_locs, sitemap_doc.
  set (body := (response ← session_get (Url sitemap_url) [];
                raise_for_status response;; fromstring response)).
  assert ((attempt body (static site) h).1 =
          Some (Ok (match site (get_request sitemap_url) with
                    | Responded r =>
                        if (400 <=? status_code r) && (status_code r <? 600)
                        then inl (HTTPError (status_code r))
                        else match xml_body r with
                             | Some d => inr d
                             | None => inl ParseError
                             end
                    | NetError => inl RequestException
                    end))) as Hbody.
  { unfold attempt, try_except, body, session_get. rewrite bind_run, send_run.
    unfold static, get_request. destruct (site _) as [r|]; [|done].
    rewrite raise_for_status_run. destruct (_ && _); [done|].
    unfold fromstring. by destruct (xml_body r). }
  rewrite (bind_result _ _ _ _ _ Hbody). clear Hbody.
  generalize (h ++ (attempt body (static site) h).2). intros h'.
  destruct (site (get_request sitemap_url)) as [r|].
  - destruct (_ && _).
    + rewrite bind_out. cbn. do 3 f_equal. set_solver.
    + destruct (xml_body r) as [root|].
      * destruct (PyStr.contains "sitemapindex" (tag root)).
        -- destruct (read_index_static (locs root) urls h') as [err Herr].
           rewrite (bind_result _ _ _ _ _ Herr). by destruct err.
        -- reflexivity.
      * rewrite bind_out. cbn. do 3 f_equal. set_solver.
  - rewrite bind_out. cbn. do 3 f_equal. set_solver.
Qed.

Lemma read_sitemaps_static sitemap_urls urls h :
  (read_sitemaps self sitemap_urls urls (static site) h).1 =
  Some (Ok (urls ∪ list_to_set (flat_map (sitemap_locs site) sitemap_urls))).
Proof.
  revert urls h. induction sitemap_urls as [|u l IH]; intros urls h;
    cbn [read_sitemaps flat_map].
  - cbn. do 3 f_equal. set_solver.
  - rewrite (bind_result _ _ _ _ _ (read_sitemap_static u urls h)), IH.
    do 2 f_equal. set_solver.
Qed.

End StaticSite.

(** The set comprehension of line 261 on a set whose elements all carry
    text. *)
Lemma filter_post_urls_ok (l : list (option string)) :
  Forall is_Some l →
  ∃ post_urls : gset string,
    filter_post_urls l = Ok post_urls ∧
    ∀ url, url ∈ post_urls ↔ Some url ∈ l ∧ is_post_url url = true.
Proof.
  induction 1 as [|x l [url ->] _ (post_urls & Heq & Hiff)].
  - exists ∅. split; [done|]. intros url. set_solver.
  - cbn [filter_post_urls]. rewrite Heq. cbn.
    destruct (is_post_url url) eqn:Hu.
    + eexists. split; [done|]. intros url'. rewrite elem_of_union, elem_of_singleton, Hiff.
      rewrite elem_of_cons. split.
      * intros [->|[? ?]]; [by split; [left|] | by split; [right|]].
      * intros [[[= ->]|?] ?]; [by left | by right].
    + eexists. split; [done|]. intros url'. rewrite Hiff, elem_of_cons. split.
      * intros [? ?]. by split; [right|].
      * intros [[[= ->]|?] ?]; [congruence | done].
Qed.

Section IndexReader.
Variable self : WordPressMigrator.

(** The result of [get_sitemap_urls] on a site that answers each URL always
    the same. *)
Lemma get_sitemap_urls_static site h :
  (get_sitemap_urls self (static site) h).1 =
  Some (post_urls ← filter_post_urls
                      (elements (list_to_set (collected self site) : gset (option string)));
        Ok (elements post_urls)).
Proof.
  unfold get_sitemap_urls, get_all_sitemaps. rewrite bind_enter. cbn [fst].
  generalize (h ++ [Enter CGetSitemapUrls]). clear h. intros h.
  assert (∀ h, ((enter CGetAllSitemaps;; probe_sitemaps self potential_sitemaps [])
                  (static site) h).1
               = Some (Ok (List.filter (found site)
                             (map (λ p, source_url self +:+ p) potential_sitemaps)))) as Hp.
  { intros h'. rewrite bind_enter. cbn [fst]. by rewrite probe_sitemaps_static. }
  rewrite (bind_result _ _ _ _ _ (Hp h)). unfold collected.
  destruct (List.filter _ _) as [|u l] eqn:Hf.
  - rewrite bind_out. reflexivity.
  - rewrite (bind_result _ _ _ _ _ (read_sitemaps_static self site (u :: l) ∅ _)).
    rewrite bind_lift.
    replace (∅ ∪ list_to_set (flat_map (sitemap_locs site) (u :: l)))
      with (list_to_set (flat_map (sitemap_locs site) (u :: l)) : gset (option string))
      by set_solver.
    by destruct (filter_post_urls _).
Qed.

End IndexReader.


Lemma probe_sitemaps_none (self : WordPressMigrator) (srv : Server) paths acc h :
  (∀ h' p r, p ∈ paths →
     srv h' (get_request (source_url self +:+ p)) = Responded r → status_code r ≠ 200) →
  (probe_sitemaps self paths acc srv h).1 = Some (Ok acc).
Proof.
  revert acc h. induction paths as [|p paths IH]; intros acc h Hs; [done|].
  cbn [probe_sitemaps].
  assert ((probe_sitemap self p srv h).1 = Some (Ok false)) as Hp.
  { unfold probe_sitemap, try_except, session_get. rewrite send_run.
    fold (get_request (source_url self +:+ p)).
    destruct (srv h _) as [r|] eqn:Hr; [|done]. cbn.
    apply (Hs h p r) in Hr; [|by left]. by apply Z.eqb_neq in Hr as ->. }
  rewrite (bind_result _ _ _ _ _ Hp). apply IH.
  intros h' p' r Hin. apply Hs. by right.
Qed.


(** ** File extensions *)

Lemma string_app_cons c (s t : string) : String c s +:+ t = String c (s +:+ t).
Proof. reflexivity. Qed.

Lemma string_app_nil_r (s : string) : s +:+ "" = s.
Proof. induction s as [|c s IH]; [done|]. rewrite string_app_cons. by f_equal. Qed.

Lemma string_app_assoc (a b c : string) : (a +:+ b) +:+ c = a +:+ (b +:+ c).
Proof. induction a as [|x a IH]; [done|]. rewrite !string_app_cons. by f_equal. Qed.

Lemma prefix_dot c s : String.prefix "." (String c s) = bool_decide (c = "."%char).
Proof.
  change (String.prefix "." (String c s))
    with (if ascii_dec "." c then String.prefix "" s else false).
  destruct (ascii_dec "." c) as [<-|Hne].
  - rewrite bool_decide_eq_true_2 by done. by destruct s.
  - by rewrite bool_decide_eq_false_2.
Qed.

Lemma lower_ascii_dot c : PyStr.lower_ascii c = "."%char ↔ c = "."%char.
Proof.
  destruct c as [[] [] [] [] [] [] [] []]; vm_compute; split; congruence.
Qed.

Lemma lower_app a b : PyStr.lower (a +:+ b) = PyStr.lower a +:+ PyStr.lower b.
Proof.
  induction a as [|c a IH]; [done|]. rewrite string_app_cons. cbn [PyStr.lower].
  rewrite string_app_cons. by f_equal.
Qed.

Lemma contains_dot_lower s : PyStr.contains "." (PyStr.lower s) = PyStr.contains "." s.
Proof.
  induction s as [|c s IH]; [done|].
  cbn [PyStr.lower PyStr.contains]. rewrite !prefix_dot, IH. f_equal.
  apply bool_decide_ext, lower_ascii_dot.
Qed.

Lemma split_aux_nonempty sep skip cur s : PyStr.split_aux sep skip cur s ≠ [].
Proof.
  revert skip cur. induction s as [|c s IH]; intros skip cur; [done|].
  cbn [PyStr.split_aux]. destruct skip; [|apply IH].
  destruct (String.prefix sep (String c s)); [done | apply IH].
Qed.

(** Without a dot, [split('.')] returns the text as its only piece. *)
Lemma split_aux_no_dot cur s :
  PyStr.contains "." s = false → PyStr.split_aux "." 0 cur s = [cur +:+ s].
Proof.
  revert cur. induction s as [|c s IH]; intros cur Hs.
  - cbn. by rewrite string_app_nil_r.
  - cbn [PyStr.contains] in Hs. apply orb_false_iff in Hs as [Hp Hs].
    cbn [PyStr.split_aux]. rewrite Hp, IH by done.
    by rewrite string_app_assoc.
Qed.

Lemma last_cons {A} (x : A) l d : l ≠ [] → List.last (x :: l) d = List.last l d.
Proof. by destruct l. Qed.

(** The last piece of a text is the last piece of what follows a dot. *)
Lemma split_aux_last_dot stem e cur :
  PyStr.last_piece (PyStr.split_aux "." 0 cur (stem +:+ "." +:+ e)) =
  PyStr.last_piece (PyStr.split_aux "." 0 "" e).
Proof.
  revert cur. induction stem as [|c stem IH]; intros cur.
  - change ("" +:+ "." +:+ e) with (String "." e). cbn [PyStr.split_aux].
    rewrite prefix_dot, bool_decide_eq_true_2 by done.
    cbn [String.length Nat.sub]. unfold PyStr.last_piece.
    rewrite last_cons; [done | apply split_aux_nonempty].
  - rewrite string_app_cons. cbn [PyStr.split_aux].
    destruct (String.prefix "." _).
    + cbn [String.length Nat.sub]. unfold PyStr.last_piece in *.
      rewrite last_cons; [apply IH | apply split_aux_nonempty].
    + apply IH.
Qed.

(** C9.  [get_content_type] looks the extension up in a table of six
    entries and falls back to [application/octet-stream].  The extension is
    the lowercased text after the last dot of the filename; a filename
    without a dot is its own extension, so the file named [png] is given
    [image/png]. *)
Theorem get_content_type_table (filename : string) :
  (∀ stem e, filename = stem +:+ "." +:+ e → PyStr.contains "." e = false →
     file_ext filename = PyStr.lower e) ∧
  (PyStr.contains "." filename = false → file_ext filename = PyStr.lower filename) ∧
  get_content_type filename =
    (let ext := file_ext filename in
     if String.eqb ext "jpg" then "image/jpeg"
     else if String.eqb ext "jpeg" then "image/jpeg"
     else if String.eqb ext "png" then "image/png"
     else if String.eqb ext "gif" then "image/gif"
     else if String.eqb ext "webp" then "image/webp"
     else if String.eqb ext "pdf" then "application/pdf"
     else "application/octet-stream") ∧
  size content_types = 6%nat ∧
  get_content_type "png" = "image/png".
Proof.
  split_and!.
  - intros stem e -> He. unfold file_ext, PyStr.split.
    rewrite !lower_app. change (PyStr.lower ".") with ".".
    rewrite split_aux_last_dot, split_aux_no_dot by (by rewrite contains_dot_lower).
    reflexivity.
  - intros Hf. unfold file_ext, PyStr.split.
    rewrite split_aux_no_dot by (by rewrite contains_dot_lower). reflexivity.
  - unfold get_content_type. generalize (file_ext filename). intros ext. cbv zeta.
    destruct (String.eqb_spec ext "jpg") as [->|?]; [by vm_compute|].
    destruct (String.eqb_spec ext "jpeg") as [->|?]; [by vm_compute|].
    destruct (String.eqb_spec ext "png") as [->|?]; [by vm_compute|].
    destruct (String.eqb_spec ext "gif") as [->|?]; [by vm_compute|].
    destruct (String.eqb_spec ext "webp") as [->|?]; [by vm_compute|].
    destruct (String.eqb_spec ext "pdf") as [->|?]; [by vm_compute|].
    unfold content_types. cbn [list_to_map foldr]. cbv [fst snd].
    by rewrite !lookup_insert_ne, lookup_empty by done.
  - by vm_compute.
  - by vm_compute.
Qed.

(** The order of the events of one item. *)
Lemma item_media_order (self : WordPressMigrator) (evs : list Event) :
  item_shape self evs →
  (∀ pre e suf,
     evs = pre ++ e :: suf → media_call e = true →
     ∃ new_post new_post_id,
       Exists (created self new_post) pre ∧
       Py.getitem new_post "id" = Ok new_post_id ∧
       links_to new_post_id e) ∧
  (Exists (λ e, create_failure e = true) evs →
   Forall (λ e, media_call e = false) evs).
Proof.
  intros [Hq|(a & new_post & new_post_id & evh & Heq & Ha & Hc & Hid & Hl & Hf)].
  - split; [|done]. intros pre e suf Heq He.
    rewrite Heq in Hq. apply Forall_app in Hq as [_ Hq].
    inversion Hq; subst. congruence.
  - split.
    + intros pre e suf Hsplit He. rewrite Heq in Hsplit.
      destruct (split_beyond media_call _ _ _ _ _ Ha He Hsplit) as (pre' & -> & Hrest).
      exists new_post, new_post_id. split_and!; [|done|].
      * apply Exists_app. by left.
      * assert (Forall (links_to new_post_id) (evh ++ [Out Advance; Sleep 1])) as Hall.
        { apply Forall_app. split; [done|]. by repeat constructor. }
        rewrite Hrest in Hall. apply Forall_app in Hall as [_ Hall].
        by inversion Hall.
    + intros Hex. apply Exists_exists in Hex as (e & Hin & He).
      apply (proj1 (Forall_forall _ _) Hf) in Hin. congruence.
Qed.

(** C2.  In the events of one item, of either loop, every entry into
    [get_media], [upload_media] or [set_featured_image] comes after a create
    request that the destination answered with a record that has an [id],
    and [set_featured_image] is entered with that [id]; and when
    [create_post] failed, none of the three is entered at all.  A failed
    [create_post] is seen in the events by the error line it prints, which
    it prints whenever it raises. *)
Theorem media_only_after_create
    (self : WordPressMigrator) (item : Item) (srv : Server) (h : list Event) :
  let evs := (migrate_item self item srv h).2 in
  (∀ pre e suf,
     evs = pre ++ e :: suf → media_call e = true →
     ∃ new_post new_post_id,
       Exists (created self new_post) pre ∧
       Py.getitem new_post "id" = Ok new_post_id ∧
       links_to new_post_id e) ∧
  (Exists (λ e, create_failure e = true) evs →
   Forall (λ e, media_call e = false) evs) ∧
  (∀ post h' e ev,
     create_post self post srv h' = (Some (Raise e), ev) → Out (ErrCreatePost e) ∈ ev).
Proof.
  intros evs.
  destruct (item_media_order self evs (migrate_item_shape self item srv h)) as [H1 H2].
  split_and!; [exact H1 | exact H2 |].
  intros post h' e ev. apply create_post_raise.
Qed.


(** C10.  [upload_media] called with [None] or with no bytes raises
    [ValueError] at its guard: the run of the call holds no request at all,
    only the entry into the method and the line that prints the error. *)
Theorem upload_media_rejects_empty
    (self : WordPressMigrator) (media_content : option string) (filename : string)
    (srv : Server) (h : list Event) :
  bytes_truthy media_content = false →
  upload_media self media_content filename srv h =
    (Some (Raise (ValueError "No media content provided")),
     [ Enter (CUploadMedia media_content filename);
       Out (ErrUploadMedia (ValueError "No media content provided")) ]) ∧
  ∀ rq res, Http rq res ∉ (upload_media self media_content filename srv h).2.
Proof.
  intros H. rewrite upload_media_empty by done. split; [done|].
  intros rq res Hin. cbn in Hin.
  apply elem_of_cons in Hin as [[=]|Hin].
  apply elem_of_cons in Hin as [[=]|Hin].
  by apply elem_of_nil in Hin.
Qed.

(** C4 does not hold of the code: the handler in effect is the one of lines
    371-386.  On a post whose featured-media entry has no [source_url] it
    raises [KeyError] inside its [try] and prints the warning of line 386,
    where the handler of lines 199-222 returns silently; on an entry whose
    [source_url] is the empty string it goes on to [get_media] and
    [upload_media]. *)
Theorem handle_featured_image_without_source_url
    (self : WordPressMigrator) (new_post_id : PyVal) (srv : Server) (h : list Event) :
  let post := PDict [("_embedded", PDict [("wp:featuredmedia", PList [PDict []])])] in
  let empty := PDict [("_embedded", PDict [("wp:featuredmedia",
                        PList [PDict [("source_url", PStr "")]])])] in
  handle_featured_image self post new_post_id srv h =
    (Some (Ok tt),
     [ Enter (CHandleFeaturedImage post new_post_id);
       Out (WarnFeaturedImage (KeyError (PStr "source_url"))) ]) ∧
  handle_featured_image_199 self post new_post_id srv h =
    (Some (Ok tt), [Enter (CHandleFeaturedImage post new_post_id)]) ∧
  Enter (CGetMedia "") ∈ (handle_featured_image self empty new_post_id srv h).2 ∧
  handle_featured_image_199 self empty new_post_id srv h =
    (Some (Ok tt), [Enter (CHandleFeaturedImage empty new_post_id)]).
Proof.
  intros post empty. split_and!; try reflexivity.
  unfold handle_featured_image, handle_featured_image_371.
  rewrite bind_enter. cbn [snd]. apply elem_of_cons. right.
  match goal with
  | |- context [try_except ?b ?hd srv ?h'] =>
      destruct (try_except_events b hd srv h') as [tl ->]
  end.
  apply elem_of_app. left.
  rewrite bind_lift. change (has_featured_media empty) with (Ok true : Res bool). cbv iota.
  rewrite bind_lift.
  change (featured_media_info empty ≫= _) with (Ok (PStr "") : Res PyVal). cbv iota.
  rewrite bind_lift. cbn [Py.split]. rewrite bind_out. cbn [snd].
  match goal with
  | |- context [mbind ?k ?m srv ?h'] => destruct (bind_events m k srv h') as [tl2 ->]
  end.
  unfold get_media. rewrite bind_enter. cbn [snd]. set_solver.
Qed.

(** * Runs on concrete sites *)

(** The blog: two records are created, one media file is uploaded and
    linked, and both items end normally. *)
Example blog_run :
  let evs := (migrate_content Scenario.me 5 (static Scenario.blog) []).2 in
  Scenario.entries (λ c, match c with CCreatePost _ => true | _ => false end) evs = 2%nat ∧
  Scenario.entries (λ c, match c with CUploadMedia _ _ => true | _ => false end) evs = 1%nat ∧
  Scenario.entries (λ c, match c with CSetFeaturedImage _ _ => true | _ => false end) evs
    = 1%nat ∧
  List.length (List.filter (λ e, match e with Out Advance => true | _ => false end) evs)
    = 2%nat.
Proof. vm_compute. done. Qed.

(** The same blog when the media file is missing: both records are created
    all the same, and nothing is linked. *)
Example blog_without_media_run :
  let evs := (migrate_content Scenario.me 5 (static Scenario.blog_without_media) []).2 in
  Scenario.entries (λ c, match c with CCreatePost _ => true | _ => false end) evs = 2%nat ∧
  Scenario.entries (λ c, match c with CSetFeaturedImage _ _ => true | _ => false end) evs
    = 0%nat ∧
  List.length (List.filter (λ e, match e with Out Advance => true | _ => false end) evs)
    = 2%nat.
Proof. vm_compute. done. Qed.

(** A sitemap that cannot be fetched after the probe is skipped, and the
    next one is read. *)
Example flaky_sitemap_skipped :
  (get_sitemap_urls Scenario.me Scenario.flaky []).1
  = Some (Ok ["https://src.example/blog/c"]).
Proof. vm_compute. reflexivity. Qed.

(** An empty [<loc/>] puts [None] into the set, and the filter of line 261,
    which is outside the [try], raises. *)
Example empty_loc_raises :
  (get_sitemap_urls Scenario.me (static Scenario.empty_loc_site) []).1
  = Some (Raise TypeError).
Proof. vm_compute. reflexivity. Qed.

(** * The theorems at work on concrete sites *)


(** C6 on the pages [100 items, 100 items, 0 items]: 200 items, three
    requests, a pause after the first and after the second. *)
Lemma get_all_posts_via_api_pages_witness :
  get_all_posts_via_api Scenario.me 3 Scenario.three_pages [] =
    (Some (Ok (Scenario.hundred_posts ++ Scenario.hundred_posts)),
     [ Enter CGetAllPostsViaApi;
       Http (page_request Scenario.me 1) (Responded Scenario.full_page); Sleep 1;
       Http (page_request Scenario.me 2) (Responded Scenario.full_page); Sleep 1;
       Http (page_request Scenario.me 3) (Responded Scenario.empty_page) ]) ∧
  List.length (Scenario.hundred_posts ++ Scenario.hundred_posts) = 200%nat.
Proof.
  split; [|reflexivity].
  refine (proj1 (get_all_posts_via_api_pages Scenario.me Scenario.three_pages
            [ (Scenario.full_page, Scenario.hundred_posts);
              (Scenario.full_page, Scenario.hundred_posts) ]
            Scenario.empty_page _ _ _ _ 3%nat [] _)).
  - repeat constructor; done.
  - right. split; reflexivity.
  - intros h [|[|i]] p Hp; [injection Hp as <- ..|]; try reflexivity. discriminate.
  - reflexivity.
  - cbn. lia.
Defined.


(** C10 on [None]. *)
Lemma upload_media_rejects_empty_witness :
  upload_media Scenario.me None "a.png" Scenario.offline [] =
    (Some (Raise (ValueError "No media content provided")),
     [ Enter (CUploadMedia None "a.png");
       Out (ErrUploadMedia (ValueError "No media content provided")) ]).
Proof.
  apply (upload_media_rejects_empty Scenario.me None "a.png" Scenario.offline []).
  reflexivity.
Defined.

(** C9 on [photo.JPG]. *)
Lemma get_content_type_table_witness :
  file_ext "photo.JPG" = "jpg" ∧ get_content_type "photo.JPG" = "image/jpeg".
Proof.
  split.
  - apply (proj1 (get_content_type_table "photo.JPG") "photo" "JPG"); reflexivity.
  - reflexivity.
Defined.



(** C2 on the post with a featured image: the download is entered after the
    answered create request. *)
Lemma media_only_after_create_witness :
  let evs := (migrate_item Scenario.me (FromApi Scenario.post_a)
                (static Scenario.blog) []).2 in
  ∃ new_post new_post_id,
    Exists (created Scenario.me new_post) (take 5 evs) ∧
    Py.getitem new_post "id" = Ok new_post_id ∧
    links_to new_post_id (Enter (CGetMedia "https://src.example/img/a.PNG")).
Proof.
  intros evs.
  apply (proj1 (media_only_after_create Scenario.me (FromApi Scenario.post_a)
                  (static Scenario.blog) [])
           (take 5 evs) (Enter (CGetMedia "https://src.example/img/a.PNG"))
           (drop 6 evs)).
  - vm_compute. reflexivity.
  - reflexivity.
Defined.

(** * More of the class *)

(** ** [__init__] *)

Lemma endswith_cons suf c s :
  PyStr.endswith suf (String c s) = String.eqb (String c s) suf || PyStr.endswith suf s.
Proof. reflexivity. Qed.

Lemma rstrip_cons c a s :
  PyStr.rstrip c (String a s) =
  if (String.eqb (PyStr.rstrip c s) "" && Ascii.eqb a c)%bool then ""
  else String a (PyStr.rstrip c s).
Proof. reflexivity. Qed.

(** [rstrip('/')] takes a run of slashes off the end, and nothing else. *)
Lemma rstrip_slashes (s : string) :
  PyStr.endswith "/" (PyStr.rstrip "/" s) = false ∧
  ∃ n, s = PyStr.rstrip "/" s +:+ slashes n.
Proof.
  induction s as [|a s [IHe [n IHn]]]; [split; [done | by exists 0%nat]|].
  rewrite rstrip_cons.
  destruct (String.eqb_spec (PyStr.rstrip "/" s) "") as [Hr|Hr];
    [destruct (Ascii.eqb_spec a "/") as [->|Ha]|]; cbn [andb].
  - split; [done|]. exists (S n). rewrite IHn at 1. by rewrite Hr.
  - split.
    + rewrite endswith_cons, IHe, Hr, orb_false_r.
      apply String.eqb_neq. intros [= ->]. done.
    + exists n. rewrite string_app_cons. by f_equal.
  - split.
    + rewrite endswith_cons, IHe, orb_false_r.
      apply String.eqb_neq. intros [= -> Hr']. done.
    + exists n. rewrite string_app_cons. by f_equal.
Qed.

(** X1.  [__init__] stores both base URLs without any slash at the end: what
    it removes from each is a run of slashes at the end and nothing else;
    the credentials are stored as given. *)
Theorem init_strips_trailing_slashes (source destination username app_password : string) :
  let self := init source destination username app_password in
  PyStr.endswith "/" (source_url self) = false ∧
  PyStr.endswith "/" (destination_url self) = false ∧
  (∃ n, source = source_url self +:+ slashes n) ∧
  (∃ n, destination = destination_url self +:+ slashes n) ∧
  auth self = (username, app_password).
Proof.
  cbn. split_and!; try apply rstrip_slashes. reflexivity.
Qed.

(** ** [get_all_sitemaps] *)

Section Probes.
Variable self : WordPressMigrator.

Lemma probe_sitemap_run sitemap srv h :
  probe_sitemap self sitemap srv h =
  (Some (Ok (match srv h (get_request (source_url self +:+ sitemap)) with
             | Responded r => status_code r =? 200
             | NetError => false
             end)),
   [Http (get_request (source_url self +:+ sitemap))
         (srv h (get_request (source_url self +:+ sitemap)))]).
Proof.
  unfold probe_sitemap, try_except, session_get. rewrite send_run.
  fold (get_request (source_url self +:+ sitemap)). by destruct (srv h _).
Qed.

Lemma requests_app evs1 evs2 : requests (evs1 ++ evs2) = requests evs1 ++ requests evs2.
Proof. apply omap_app. Qed.

Lemma requests_http rq res evs : requests (Http rq res :: evs) = rq :: requests evs.
Proof. reflexivity. Qed.

Lemma probe_sitemaps_run paths : ∀ acc srv h,
  ∃ kept evs,
    probe_sitemaps self paths acc srv h = (Some (Ok (acc ++ kept)), evs) ∧
    kept `sublist_of` map (λ p, source_url self +:+ p) paths ∧
    requests evs = map (λ p, get_request (source_url self +:+ p)) paths ∧
    ∀ url, url ∈ kept →
      ∃ r, Http (get_request url) (Responded r) ∈ evs ∧ status_code r = 200.
Proof.
  induction paths as [|p paths IH]; intros acc srv h.
  - exists [], []. cbn. rewrite app_nil_r. split_and!; try done.
    intros url Hin. by apply elem_of_nil in Hin.
  - cbn [probe_sitemaps]. rewrite bind_run, probe_sitemap_run.
    set (rq := get_request (source_url self +:+ p)).
    destruct (srv h rq) as [r|] eqn:Hr.
    + destruct (status_code r =? 200) eqn:Hst.
      * destruct (IH (acc ++ [source_url self +:+ p]) srv (h ++ [Http rq (Responded r)]))
          as (kept & evs & -> & Hsub & Hreq & Hok).
        exists ((source_url self +:+ p) :: kept), (Http rq (Responded r) :: evs).
        split_and!.
        -- by rewrite <- app_assoc.
        -- cbn. by apply sublist_skip.
        -- cbn [map]. rewrite requests_http. by f_equal.
        -- intros url [->|Hin]%elem_of_cons.
           ++ exists r. split; [by left | by apply Z.eqb_eq].
           ++ destruct (Hok url Hin) as (r' & Hin' & Hst'). exists r'. split; [by right | done].
      * destruct (IH acc srv (h ++ [Http rq (Responded r)]))
          as (kept & evs & -> & Hsub & Hreq & Hok).
        exists kept, (Http rq (Responded r) :: evs). split_and!; try done.
        -- cbn. by apply sublist_cons.
        -- cbn [map]. rewrite requests_http. by f_equal.
        -- intros url Hin. destruct (Hok url Hin) as (r' & Hin' & Hst').
           exists r'. split; [by right | done].
    + destruct (IH acc srv (h ++ [Http rq NetError]))
        as (kept & evs & -> & Hsub & Hreq & Hok).
      exists kept, (Http rq NetError :: evs). split_and!; try done.
      * cbn. by apply sublist_cons.
      * cbn [map]. rewrite requests_http. by f_equal.
      * intros url Hin. destruct (Hok url Hin) as (r' & Hin' & Hst').
        exists r'. split; [by right | done].
Qed.

End Probes.

(** X2.  [get_all_sitemaps] never raises, whatever the network does.  It
    always sends the same four requests, one per candidate path and in that
    order; what it returns are candidates, in their order, and each of them
    was answered with status 200. *)
Theorem get_all_sitemaps_probes (self : WordPressMigrator) (srv : Server) (h : list Event) :
  ∃ sitemap_urls evs,
    get_all_sitemaps self srv h = (Some (Ok sitemap_urls), evs) ∧
    sitemap_urls `sublist_of` map (λ p, source_url self +:+ p) potential_sitemaps ∧
    requests evs = map (λ p, get_request (source_url self +:+ p)) potential_sitemaps ∧
    ∀ url, url ∈ sitemap_urls →
      ∃ r, Http (get_request url) (Responded r) ∈ evs ∧ status_code r = 200.
Proof.
  unfold get_all_sitemaps. rewrite bind_enter.
  destruct (probe_sitemaps_run self potential_sitemaps [] srv (h ++ [Enter CGetAllSitemaps]))
    as (kept & evs & -> & Hsub & Hreq & Hok).
  exists kept, (Enter CGetAllSitemaps :: evs). split_and!; try done.
  intros url Hin. destruct (Hok url Hin) as (r & Hin' & Hst).
  exists r. split; [by right | done].
Qed.

(** A [try] around a sequence: the handler also covers what follows. *)
Lemma try_except_bind {A B} (m : M A) (k : A → M B) hd srv h :
  try_except (m ≫= k) hd srv h =
  match m srv h with
  | (Some (Ok a), e1) =>
      ((try_except (k a) hd srv (h ++ e1)).1, e1 ++ (try_except (k a) hd srv (h ++ e1)).2)
  | (Some (Raise e), e1) => ((hd e srv (h ++ e1)).1, e1 ++ (hd e srv (h ++ e1)).2)
  | (None, e1) => (None, e1)
  end.
Proof.
  unfold try_except. rewrite bind_run.
  destruct (m srv h) as [[[a|e]|] e1]; [| by destruct (hd e srv (h ++ e1)) | done].
  destruct (k a srv (h ++ e1)) as [[[b|e]|] e2]; cbn; [done | | done].
  rewrite <- app_assoc. destruct (hd e srv (h ++ e1 ++ e2)). cbn. by rewrite app_assoc.
Qed.

(** ** [get_post_by_url] *)

Section Resolver.
Variable self : WordPressMigrator.

(** The second half of the [try] (lines 59-65). *)
Lemma fetch_by_id_run post_id srv h :
  (if Py.truthy post_id then
     response ← session_get (UrlId (source_url self +:+ "/wp-json/wp/v2/posts/") post_id)
                            [("_embed", PInt 1)];
     raise_for_status response;;
     response_json response
   else mret PNone) srv h =
  if Py.truthy post_id then
    match srv h (post_request self post_id) with
    | Responded r =>
        (Some (if (400 <=? status_code r) && (status_code r <? 600)
               then Raise (HTTPError (status_code r))
               else match json_body r with
                    | Some v => Ok v
                    | None => Raise JSONDecodeError
                    end),
         [Http (post_request self post_id) (Responded r)])
    | NetError => (Some (Raise RequestException), [Http (post_request self post_id) NetError])
    end
  else (Some (Ok PNone), []).
Proof.
  destruct (Py.truthy post_id); [|done].
  unfold session_get. rewrite send_run. fold (post_request self post_id).
  destruct (srv h _) as [r|]; [|done].
  rewrite raise_for_status_run. destruct (_ && _); [done|].
  rewrite response_json_run. by destruct (json_body r).
Qed.

(** The same, inside the [try]: the outcome is a post or [None]. *)
Lemma fetch_by_id_try url post_id srv h :
  ∃ post evs,
    try_except
      (if Py.truthy post_id then
         response ← session_get
                      (UrlId (source_url self +:+ "/wp-json/wp/v2/posts/") post_id)
                      [("_embed", PInt 1)];
         raise_for_status response;;
         response_json response
       else mret PNone)
      (λ e, out (WarnFetchPost url e);; mret PNone) srv h = (Some (Ok post), evs) ∧
    (List.length (requests evs) ≤ 1)%nat ∧
    (post ≠ PNone →
     ∃ r, evs = [Http (post_request self post_id) (Responded r)] ∧
          status_ok r ∧ json_body r = Some post).
Proof.
  unfold try_except. rewrite fetch_by_id_run.
  destruct (Py.truthy post_id).
  - destruct (srv h _) as [r|].
    + destruct (_ && _) eqn:Hst.
      * rewrite bind_out. eexists _, _. split; [reflexivity|]. cbn. split; [lia | done].
      * destruct (json_body r) as [v|] eqn:Hj.
        -- eexists _, _. split; [reflexivity|]. cbn. split; [lia|]. intros _. by exists r.
        -- rewrite bind_out. eexists _, _. split; [reflexivity|]. cbn. split; [lia | done].
    + rewrite bind_out. eexists _, _. split; [reflexivity|]. cbn. split; [lia | done].
  - eexists _, _. split; [reflexivity|]. cbn. split; [lia | done].
Qed.

End Resolver.

Section ResolverRuns.
Variable self : WordPressMigrator.

(** The lookup by slug (lines 51-57). *)
Lemma slug_lookup_run slug srv h :
  (response ← session_get (Url (source_url self +:+ "/wp-json/wp/v2/posts"))
                          [("slug", PStr slug)];
   if status_code response =? 200 then
     posts ← response_json response;
     if Py.truthy posts
     then lift (p ← Py.getitem0 posts; Py.getitem p "id")
     else mret PNone
   else mret PNone) srv h =
  (Some (match srv h (slug_request self slug) with
         | Responded r =>
             if status_code r =? 200 then
               match json_body r with
               | Some posts =>
                   if Py.truthy posts
                   then (p ← Py.getitem0 posts; Py.getitem p "id")
                   else Ok PNone
               | None => Raise JSONDecodeError
               end
             else Ok PNone
         | NetError => Raise RequestException
         end),
   [Http (slug_request self slug) (srv h (slug_request self slug))]).
Proof.
  unfold session_get. rewrite send_run. fold (slug_request self slug).
  destruct (srv h _) as [r|]; [|done].
  destruct (status_code r =? 200); [|done].
  rewrite bind_run, response_json_run. destruct (json_body r) as [posts|]; [|done].
  destruct (Py.truthy posts); [|done]. cbn. by destruct (_ ≫= _).
Qed.

(** The outcome of [get_post_by_url], given what the first half of its [try]
    came to. *)
Lemma resolve_from url (looked : Res PyVal) (pre : list Event) srv h :
  (List.length (requests pre) ≤ 1)%nat →
  ∃ post evs,
    (match looked with
     | Ok post_id =>
         let t := try_except
                    (if Py.truthy post_id then
                       response ← session_get
                                    (UrlId (source_url self +:+ "/wp-json/wp/v2/posts/")
                                           post_id)
                                    [("_embed", PInt 1)];
                       raise_for_status response;;
                       response_json response
                     else mret PNone)
                    (λ e, out (WarnFetchPost url e);; mret PNone) srv (h ++ pre) in
         (t.1, pre ++ t.2)
     | Raise e =>
         let t := (out (WarnFetchPost url e);; mret PNone) srv (h ++ pre) in
         (t.1, pre ++ t.2)
     end) = (Some (Ok post), evs) ∧
    (List.length (requests evs) ≤ 2)%nat ∧
    (post ≠ PNone →
     ∃ post_id r pre',
       evs = pre' ++ [Http (post_request self post_id) (Responded r)] ∧
       status_ok r ∧ json_body r = Some post).
Proof.
  intros Hpre. destruct looked as [post_id|e].
  - destruct (fetch_by_id_try self url post_id srv (h ++ pre)) as (post & evs & -> & Hn & Hp).
    exists post, (pre ++ evs). split; [done|]. split.
    + rewrite requests_app, length_app. lia.
    + intros Hne. destruct (Hp Hne) as (r & -> & ? & ?). by exists post_id, r, pre.
  - rewrite bind_out. eexists _, _. split; [reflexivity|]. split; [|done].
    rewrite requests_app, length_app. cbn. lia.
Qed.

(** The first half of the [try] (lines 45-57): an identifier, [None] or an
    exception, after at most one request. *)
Lemma lookup_run url srv h :
  ∃ looked pre,
    (if PyStr.contains "/?p=" url
     then ret (PStr (PyStr.last_piece (PyStr.split "/?p=" url)))
     else
       slug ← (if PyStr.endswith "/" url
               then lift (match PyStr.second_last (PyStr.split "/" url) with
                          | Some s => Ok s
                          | None => Raise IndexError
                          end)
               else ret (PyStr.last_piece (PyStr.split "/" url)));
       response ← session_get (Url (source_url self +:+ "/wp-json/wp/v2/posts"))
                              [("slug", PStr slug)];
       if status_code response =? 200 then
         posts ← response_json response;
         if Py.truthy posts
         then lift (p ← Py.getitem0 posts; Py.getitem p "id")
         else ret PNone
       else ret PNone) srv h = (Some looked, pre) ∧
    (List.length (requests pre) ≤ 1)%nat.
Proof.
  destruct (PyStr.contains "/?p=" url).
  - eexists _, _. split; [reflexivity|]. cbn. lia.
  - rewrite bind_run.
    destruct (PyStr.endswith "/" url).
    + destruct (PyStr.second_last _) as [slug|].
      * cbn [lift]. rewrite slug_lookup_run.
        eexists _, _. split; [reflexivity|]. cbn. lia.
      * eexists _, _. split; [reflexivity|]. cbn. lia.
    + cbn [ret]. rewrite slug_lookup_run.
      eexists _, _. split; [reflexivity|]. cbn. lia.
Qed.

End ResolverRuns.



(** *** The slug of a URL *)

Lemma prefix_char c x s :
  String.prefix (String c "") (String x s) = bool_decide (c = x).
Proof.
  change (String.prefix (String c "") (String x s))
    with (if ascii_dec c x then String.prefix "" s else false).
  destruct (ascii_dec c x) as [<-|Hne].
  - rewrite bool_decide_eq_true_2 by done. by destruct s.
  - by rewrite bool_decide_eq_false_2.
Qed.

(** Without the separator, [split] returns the text as its only piece. *)
Lemma split_aux_no_char c cur s :
  PyStr.contains (String c "") s = false →
  PyStr.split_aux (String c "") 0 cur s = [cur +:+ s].
Proof.
  revert cur. induction s as [|x s IH]; intros cur Hs.
  - cbn [PyStr.split_aux]. by rewrite string_app_nil_r.
  - cbn [PyStr.contains] in Hs. apply orb_false_iff in Hs as [Hp Hs].
    cbn [PyStr.split_aux]. rewrite Hp, IH by done.
    by rewrite string_app_assoc.
Qed.

(** The pieces of a text around one separator: the pieces before it, then
    the pieces after it. *)
Lemma split_aux_char_app c cur a b :
  PyStr.split_aux (String c "") 0 cur (a +:+ String c b) =
  PyStr.split_aux (String c "") 0 cur a ++ PyStr.split_aux (String c "") 0 "" b.
Proof.
  revert cur. induction a as [|x a IH]; intros cur.
  - change ("" +:+ String c b) with (String c b). cbn [PyStr.split_aux].
    by rewrite prefix_char, bool_decide_eq_true_2.
  - rewrite string_app_cons. cbn [PyStr.split_aux]. rewrite !prefix_char.
    destruct (bool_decide (c = x)).
    + cbn [String.length Nat.sub app]. by rewrite IH.
    + apply IH.
Qed.

(** [endswith('/')] looks at the end only. *)
Lemma endswith_app suf a b :
  b ≠ "" → String.length suf = 1%nat →
  PyStr.endswith suf (a +:+ b) = PyStr.endswith suf b.
Proof.
  intros Hb Hsuf. induction a as [|x a IH]; [done|].
  rewrite string_app_cons, endswith_cons, IH.
  replace (String.eqb (String x (a +:+ b)) suf) with false; [done|].
  symmetry. apply String.eqb_neq. intros <-. cbn in Hsuf.
  destruct a; [destruct b|]; done.
Qed.

Lemma endswith_no_char c s :
  PyStr.contains (String c "") s = false → PyStr.endswith (String c "") s = false.
Proof.
  induction s as [|x s IH]; [done|]. intros Hs.
  cbn [PyStr.contains] in Hs. apply orb_false_iff in Hs as [Hp Hs].
  rewrite endswith_cons, IH, orb_false_r by done.
  apply String.eqb_neq. intros [= -> ->].
  by rewrite prefix_char, bool_decide_eq_true_2 in Hp.
Qed.

(** The slug the code takes from a path: the last segment, one slash at the
    end not counted. *)
Lemma slug_of_path base seg :
  PyStr.contains "/" seg = false →
  (PyStr.endswith "/" (base +:+ "/" +:+ seg +:+ "/") = true ∧
   PyStr.second_last (PyStr.split "/" (base +:+ "/" +:+ seg +:+ "/")) = Some seg) ∧
  (seg ≠ "" →
   PyStr.endswith "/" (base +:+ "/" +:+ seg) = false ∧
   PyStr.last_piece (PyStr.split "/" (base +:+ "/" +:+ seg)) = seg).
Proof.
  intros Hseg. split.
  - split.
    + rewrite <- !string_app_assoc. by rewrite endswith_app.
    + unfold PyStr.split.
      change (base +:+ "/" +:+ seg +:+ "/") with (base +:+ String "/" (seg +:+ String "/" "")).
      rewrite !split_aux_char_app, (split_aux_no_char "/" "" seg) by done.
      change ("" +:+ seg) with seg. cbn [PyStr.split_aux].
      unfold PyStr.second_last. rewrite !length_app. cbn [List.length].
      replace (2 <=? _)%nat with true by (symmetry; apply Nat.leb_le; lia).
      rewrite lookup_app_r by lia.
      replace (_ - _)%nat with 0%nat by lia. reflexivity.
  - intros Hne. split.
    + rewrite <- string_app_assoc. rewrite endswith_app by done.
      by apply endswith_no_char.
    + unfold PyStr.split, PyStr.last_piece.
      change (base +:+ "/" +:+ seg) with (base +:+ String "/" seg).
      rewrite split_aux_char_app, (split_aux_no_char "/" "" seg) by done.
      change ("" +:+ seg) with seg. apply last_last.
Qed.

(** X4.  How [get_post_by_url] reads a URL.  A URL that contains [/?p=] is
    never looked up by slug: the only request, if any, asks for the post
    whose identifier is the text [url.split('/?p=')[-1]], and when that text
    is empty nothing is requested.  Any other URL is first looked up by
    slug, and the slug is its last path segment, one slash at the end not
    counted. *)
Theorem get_post_by_url_lookup
    (self : WordPressMigrator) (url : string) (srv : Server) (h : list Event) :
  (PyStr.contains "/?p=" url = true →
   let post_id := PStr (PyStr.last_piece (PyStr.split "/?p=" url)) in
   requests (get_post_by_url self url srv h).2 =
     if Py.truthy post_id then [post_request self post_id] else []) ∧
  (∀ base seg,
     PyStr.contains "/?p=" url = false →
     PyStr.contains "/" seg = false →
     url = base +:+ "/" +:+ seg +:+ "/" ∨ (url = base +:+ "/" +:+ seg ∧ seg ≠ "") →
     ∃ res tail,
       (get_post_by_url self url srv h).2 =
         Enter (CGetPostByUrl url) :: Http (slug_request self seg) res :: tail).
Proof.
  split.
  - intros Hp post_id. unfold get_post_by_url.
    rewrite bind_enter, try_except_bind, Hp. cbn [ret fst snd].
    unfold try_except. rewrite fetch_by_id_run. fold post_id.
    destruct (Py.truthy post_id); [|done].
    destruct (srv _ _) as [r|]; [|by rewrite bind_out].
    destruct (_ && _); [by rewrite bind_out|].
    destruct (json_body r); [done | by rewrite bind_out].
  - intros base seg Hp Hseg Hurl. unfold get_post_by_url.
    rewrite bind_enter. cbn [snd].
    match goal with
    | |- context [try_except ?b ?hd srv ?h'] =>
        destruct (try_except_events b hd srv h') as [tl1 ->]
    end.
    match goal with
    | |- context [mbind ?k ?m srv ?h'] => destruct (bind_events m k srv h') as [tl2 ->]
    end.
    rewrite Hp, bind_run.
    destruct (slug_of_path base seg Hseg) as [[He Hs] Hrest].
    destruct Hurl as [->|[-> Hne]].
    + rewrite He, Hs. cbn [lift]. rewrite slug_lookup_run. cbn. by eexists _, _.
    + destruct (Hrest Hne) as [He' Hs']. rewrite He', Hs'. cbn [ret].
      rewrite slug_lookup_run. cbn. by eexists _, _.
Qed.

(** X4 on a permalink and on a path with a slash at the end. *)
Lemma get_post_by_url_lookup_witness :
  requests (get_post_by_url Scenario.me "https://src.example/?p=12"
              (static Scenario.blog) []).2
    = [post_request Scenario.me (PStr "12")] ∧
  ∃ res tail,
    (get_post_by_url Scenario.me "https://src.example/blog/a/" (static Scenario.blog) []).2 =
      Enter (CGetPostByUrl "https://src.example/blog/a/")
        :: Http (slug_request Scenario.me "a") res :: tail.
Proof.
  split.
  - apply (proj1 (get_post_by_url_lookup Scenario.me "https://src.example/?p=12"
                    (static Scenario.blog) [])).
    reflexivity.
  - apply (proj2 (get_post_by_url_lookup Scenario.me "https://src.example/blog/a/"
                    (static Scenario.blog) []) "https://src.example/blog" "a");
      [reflexivity | reflexivity | by left].
Defined.

(** ** [create_post] *)

Lemma get_of_dict d key dflt :
  Py.get (PDict d) key dflt =
  Ok (match Py.getitem (PDict d) key with Ok x => x | Raise _ => dflt end).
Proof. cbn. by destruct (Py.assoc key d). Qed.

(** When a payload can be built. *)
Lemma new_post_payload_ok post : (∃ p, new_post_payload post = Ok p) ↔ payload_ok post.
Proof.
  unfold payload_ok, rendered, new_post_payload.
  destruct post as [| | | | |d].
  1-5: by split; [intros [p [=]] | intros [[t [=]] _]].
  rewrite !get_of_dict. unfold mbind, Res_bind.
  destruct (Py.getitem (PDict d) "title") as [title|]; [|split; [intros [? [=]] | intros [[? [=]] _]]].
  destruct (Py.getitem title "rendered") as [t|]; [|split; [intros [? [=]] | intros [[? [=]] _]]].
  destruct (Py.getitem (PDict d) "content") as [content|];
    [|split; [intros [? [=]] | intros (_ & [? [=]] & _)]].
  destruct (Py.getitem content "rendered") as [c|];
    [|split; [intros [? [=]] | intros (_ & [? [=]] & _)]].
  destruct (Py.getitem (PDict d) "slug") as [slug|];
    [|split; [intros [? [=]] | intros (_ & _ & [? [=]] & _)]].
  destruct (Py.getitem (PDict d) "excerpt") as [excerpt|].
  - destruct excerpt as [| | | | |x].
    1-5: split; [intros [? [=]] | intros (_ & _ & _ & Hx)];
         destruct (Hx _ eq_refl) as [? [=]].
    split; [intros _ | by eexists].
    split_and!; first [intros ? [= <-]; by eexists | by eexists].
  - split; [intros _ | by eexists].
    split_and!; first [by intros ? [=] | by eexists].
Qed.

(** X5.  [create_post] builds its payload only from a post that is a
    dictionary with a rendered title, a rendered content and a slug, and
    whose excerpt, when present, is a dictionary.  From any other post it
    raises the lookup error without sending anything.  When the payload can
    be built exactly one request is sent, with that payload; its status is
    ["publish"] whatever the status of the source post, and it has ten keys. *)
Theorem create_post_payload
    (self : WordPressMigrator) (post : PyVal) (srv : Server) (h : list Event) :
  ((∃ p, new_post_payload post = Ok p) ↔ payload_ok post) ∧
  (∀ e, new_post_payload post = Raise e →
        create_post self post srv h =
          (Some (Raise e), [Enter (CCreatePost post); Out (ErrCreatePost e)])) ∧
  (∀ p, new_post_payload post = Ok p →
        requests (create_post self post srv h).2 = [create_request self p] ∧
        Py.getitem p "status" = Ok (PStr "publish") ∧
        Py.getitem p "title" = rendered post "title" ∧
        Py.getitem p "content" = rendered post "content" ∧
        Py.getitem p "slug" = Py.getitem post "slug" ∧
        keys p = [ "title"; "content"; "status"; "slug"; "excerpt"; "categories";
                   "tags"; "meta"; "date"; "modified" ]).
Proof.
  split_and!.
  - apply new_post_payload_ok.
  - intros e He. unfold create_post. rewrite bind_enter. unfold try_except.
    rewrite bind_lift, He. reflexivity.
  - intros p Hp. split.
    + unfold create_post. rewrite bind_enter. unfold try_except.
      rewrite bind_lift, Hp, send_run.
      destruct (srv _ _) as [r|]; [|done].
      rewrite raise_for_status_run. destruct (_ && _); [done|].
      rewrite response_json_run. by destruct (json_body r).
    + unfold new_post_payload, rendered in *. unfold mbind, Res_bind in *.
      repeat match type of Hp with
             | context [match ?x with Ok _ => _ | Raise _ => _ end] =>
                 destruct x; [|discriminate]
             end.
      injection Hp as <-. done.
Qed.

(** X5 on a post of the blog, and on a post without a title. *)
Lemma create_post_payload_witness :
  (∃ p, requests (create_post Scenario.me Scenario.post_b (static Scenario.blog) []).2
        = [create_request Scenario.me p]) ∧
  create_post Scenario.me (PDict [("slug", PStr "x")]) Scenario.offline [] =
    (Some (Raise (KeyError (PStr "title"))),
     [ Enter (CCreatePost (PDict [("slug", PStr "x")]));
       Out (ErrCreatePost (KeyError (PStr "title"))) ]).
Proof.
  split.
  - eexists.
    refine (proj1 (proj2 (proj2 (create_post_payload Scenario.me Scenario.post_b
                                   (static Scenario.blog) [])) _ _)).
    reflexivity.
  - apply (proj1 (proj2 (create_post_payload Scenario.me (PDict [("slug", PStr "x")])
                           Scenario.offline []))).
    reflexivity.
Defined.

(** ** [get_media] and [set_featured_image] *)



(** ** [get_sitemap_urls] on any server *)

Lemma returns_attempt {A} (m : M A) : halts m → returns (attempt m).
Proof.
  intros Hm. apply returns_try_except.
  - apply halts_bind; [done | intros; apply halts_ret].
  - intros e. apply returns_ret.
Qed.

Lemma returns_out (m : Msg) : returns (out m).
Proof. apply returns_emit. Qed.

Section ReaderReturns.
Variable self : WordPressMigrator.

Lemma read_entry_halts sitemap urls : halts (read_entry self sitemap urls).
Proof. unfold read_entry. halts_auto. Qed.

Lemma read_index_returns entries : ∀ urls, returns (read_index self entries urls).
Proof.
  induction entries as [|sitemap rest IH]; intros urls; cbn [read_index].
  - apply returns_ret.
  - apply returns_bind; [apply returns_attempt, read_entry_halts|].
    intros [e|urls']; [apply returns_ret | apply IH].
Qed.

Lemma read_sitemap_returns sitemap_url urls : returns (read_sitemap self sitemap_url urls).
Proof.
  unfold read_sitemap. apply returns_bind.
  - apply returns_attempt. halts_auto.
  - intros [e|root].
    + apply returns_bind; [apply returns_out | intros; apply returns_ret].
    + destruct (PyStr.contains _ _); [|apply returns_ret].
      apply returns_bind; [apply read_index_returns|].
      intros [urls' [e|]]; [|apply returns_ret].
      apply returns_bind; [apply returns_out | intros; apply returns_ret].
Qed.

Lemma read_sitemaps_returns sitemap_urls : ∀ urls,
  returns (read_sitemaps self sitemap_urls urls).
Proof.
  induction sitemap_urls as [|u rest IH]; intros urls; cbn [read_sitemaps].
  - apply returns_ret.
  - apply returns_bind; [apply read_sitemap_returns | intros; apply IH].
Qed.

End ReaderReturns.

Lemma get_all_sitemaps_returns (self : WordPressMigrator) srv h :
  ∃ sitemap_urls evs, get_all_sitemaps self srv h = (Some (Ok sitemap_urls), evs).
Proof.
  unfold get_all_sitemaps. rewrite bind_enter.
  destruct (probe_sitemaps_run self potential_sitemaps [] srv (h ++ [Enter CGetAllSitemaps]))
    as (kept & evs & -> & _). by eexists _, _.
Qed.

(** The comprehension keeps post URLs only, and fails in one way. *)
Lemma filter_post_urls_result (l : list (option string)) :
  (∃ post_urls : gset string,
     filter_post_urls l = Ok post_urls ∧
     ∀ url, url ∈ post_urls → is_post_url url = true) ∨
  filter_post_urls l = Raise TypeError.
Proof.
  induction l as [|[url|] l IH]; cbn [filter_post_urls].
  - left. exists ∅. split; [done|]. set_solver.
  - destruct IH as [(post_urls & Heq & Hall)|Heq]; rewrite Heq; [|by right].
    left. cbn. destruct (is_post_url url) eqn:Hu.
    + eexists. split; [done|]. intros url' [->%elem_of_singleton|?]%elem_of_union; auto.
    + by exists post_urls.
  - by right.
Qed.


(** ** [get_all_posts_via_api] on any server *)

Section Turns.
Variable self : WordPressMigrator.

(** One turn of the loop never raises, and sends one request. *)
Lemma turn_run page all_posts srv h :
  ∃ t evs,
    try_except (fetch_page self page all_posts)
               (λ e, out (WarnFetchPage page e);; ret Break) srv h = (Some (Ok t), evs) ∧
    requests evs = [page_request self page].
Proof.
  unfold try_except, fetch_page. rewrite send_run.
  destruct (srv h (page_request self page)) as [r|]; [|by eexists _, _].
  destruct (status_code r =? 400); [by eexists _, _|].
  rewrite raise_for_status_run. destruct (_ && _); [by eexists _, _|].
  rewrite bind_run, response_json_run.
  destruct (json_body r) as [posts|]; [|by eexists _, _].
  cbv [fst snd]. destruct (negb (Py.truthy posts)); [by eexists _, _|].
  rewrite bind_lift. destruct (Py.iterate posts) as [items|e]; by eexists _, _.
Qed.

Lemma page_requests_S page n :
  page_requests self page (S n) = page_request self page :: page_requests self (page + 1) n.
Proof.
  unfold page_requests. cbn [seq map]. rewrite Z.add_0_r. f_equal.
  rewrite <- seq_shift, map_map. apply map_ext. intros i. f_equal. lia.
Qed.

Lemma fetch_pages_requests fuel : ∀ page all_posts srv h,
  ∃ n, (n ≤ fuel)%nat ∧
    requests (fetch_pages self fuel page all_posts srv h).2 = page_requests self page n ∧
    match (fetch_pages self fuel page all_posts srv h).1 with
    | Some (Ok _) => (0 < n)%nat
    | Some (Raise _) => False
    | None => n = fuel
    end.
Proof.
  induction fuel as [|fuel IH]; intros page all_posts srv h.
  - by exists 0%nat.
  - cbn [fetch_pages]. rewrite bind_run.
    destruct (turn_run page all_posts srv h) as (t & evs & -> & Hreq).
    destruct t as [|all_posts'].
    + exists 1%nat. unfold ret. cbv [fst snd]. rewrite app_nil_r, Hreq.
      split_and!; [lia | | lia]. unfold page_requests. cbn. by rewrite Z.add_0_r.
    + destruct (IH (page + 1) all_posts' srv (h ++ evs)) as (n & Hn & Hreq' & Hout).
      destruct (fetch_pages self fuel (page + 1) all_posts' srv (h ++ evs)) as [r evs'].
      exists (S n). cbv [fst snd] in *. rewrite requests_app, Hreq, Hreq', page_requests_S.
      split_and!; [lia | done |]. destruct r as [[?|?]|]; [lia | done | lia].
Qed.

End Turns.


Lemma fetch_pages_unbounded (self : WordPressMigrator) (srv : Server) :
  (∀ h page, ∃ r items, srv h (page_request self page) = Responded r ∧ page_of r items) →
  ∀ fuel page all_posts h, (fetch_pages self fuel page all_posts srv h).1 = None.
Proof.
  intros Hsrv. induction fuel as [|fuel IH]; intros page all_posts h; [done|].
  destruct (Hsrv h page) as (r & items & Hr & Hp).
  rewrite (fetch_pages_next self srv fuel page all_posts h r items Hr Hp). apply IH.
Qed.

(** X10.  The loop of [get_all_posts_via_api] has no bound of its own.  On a
    source that answers every listing request with a page that carries
    items, no number of turns suffices for the method to return, and each
    turn sends the request for the next page. *)
Theorem get_all_posts_via_api_unbounded (self : WordPressMigrator) (srv : Server) :
  (∀ h page, ∃ r items, srv h (page_request self page) = Responded r ∧ page_of r items) →
  ∀ fuel h,
    (get_all_posts_via_api self fuel srv h).1 = None ∧
    requests (get_all_posts_via_api self fuel srv h).2 = page_requests self 1 fuel.
Proof.
  intros Hsrv fuel h. unfold get_all_posts_via_api. rewrite bind_enter. cbv [fst snd].
  set (h1 := h ++ [Enter CGetAllPostsViaApi]).
  pose proof (fetch_pages_unbounded self srv Hsrv fuel 1 [] h1) as Hnone.
  destruct (fetch_pages_requests self fuel 1 [] srv h1) as (n & _ & Hreq & Hout).
  rewrite Hnone in Hout. subst n. split; [done|]. exact Hreq.
Qed.

Lemma get_all_posts_via_api_unbounded_witness :
  (get_all_posts_via_api Scenario.me 3 Cases.endless []).1 = None ∧
  requests (get_all_posts_via_api Scenario.me 3 Cases.endless []).2 =
    page_requests Scenario.me 1 3.
Proof.
  apply (get_all_posts_via_api_unbounded Scenario.me Cases.endless).
  intros h page. exists Scenario.full_page, Scenario.hundred_posts.
  split; [reflexivity|]. split_and!; [reflexivity | reflexivity | discriminate].
Defined.

(** ** Where the credentials go *)

Ltac authorised_close :=
  intros ? ? [=]; subst;
  first [ done | by split; [|eexists] ].

Ltac authorised_step :=
  first
    [ emits_step
    | apply emits_send; intros ?; authorised_close
    | apply emits_emit; authorised_close ].

Section Credentials.
Variable self : WordPressMigrator.
Let P := sends_authorised self.

Lemma get_sitemap_urls_authorised : emits P (get_sitemap_urls self).
Proof.
  assert (Hprobe : ∀ paths acc, emits P (probe_sitemaps self paths acc)).
  { induction paths as [|p paths IH]; intros acc; cbn [probe_sitemaps].
    - apply emits_ret.
    - apply emits_bind; [unfold probe_sitemap; repeat authorised_step | intros; apply IH]. }
  assert (Hindex : ∀ entries urls, emits P (read_index self entries urls)).
  { induction entries as [|s entries IH]; intros urls; cbn [read_index].
    - apply emits_ret.
    - apply emits_bind; [unfold read_entry; repeat authorised_step |].
      intros [e|urls']; [apply emits_ret | apply IH]. }
  assert (Hone : ∀ u urls, emits P (read_sitemap self u urls)).
  { intros u urls. unfold read_sitemap. apply emits_bind; [repeat authorised_step|].
    intros [e|root]; [repeat authorised_step|].
    destruct (PyStr.contains _ _); [| apply emits_ret].
    apply emits_bind; [apply Hindex | intros [urls' [e|]]; repeat authorised_step]. }
  assert (Hall : ∀ l urls, emits P (read_sitemaps self l urls)).
  { induction l as [|u l IH]; intros urls; cbn [read_sitemaps].
    - apply emits_ret.
    - apply emits_bind; [apply Hone | intros; apply IH]. }
  unfold get_sitemap_urls, get_all_sitemaps.
  apply emits_bind; [repeat authorised_step | intros _].
  apply emits_bind; [apply emits_bind; [repeat authorised_step | intros; apply Hprobe] |].
  intros [|u l]; [repeat authorised_step|].
  apply emits_bind; [apply Hall | intros; repeat authorised_step].
Qed.

Lemma get_all_posts_via_api_authorised fuel : emits P (get_all_posts_via_api self fuel).
Proof.
  unfold get_all_posts_via_api. apply emits_bind; [repeat authorised_step | intros _].
  generalize 1 (@nil PyVal). induction fuel as [|fuel IH]; intros page all_posts;
    cbn [fetch_pages].
  - apply emits_diverge.
  - apply emits_bind; [unfold fetch_page; repeat authorised_step |].
    intros [|all_posts']; [apply emits_ret | apply IH].
Qed.

Lemma get_post_by_url_authorised url : emits P (get_post_by_url self url).
Proof. unfold get_post_by_url. repeat authorised_step. Qed.

Lemma create_post_authorised post : emits P (create_post self post).
Proof. unfold create_post, create_request. repeat authorised_step. Qed.

Lemma handle_featured_image_199_authorised post new_post_id :
  emits P (handle_featured_image_199 self post new_post_id).
Proof.
  unfold handle_featured_image_199, get_media, upload_media, upload_request,
    set_featured_image, link_request.
  repeat authorised_step.
Qed.

Lemma handle_featured_image_authorised post new_post_id :
  emits P (handle_featured_image self post new_post_id).
Proof.
  unfold handle_featured_image, handle_featured_image_371, get_media, upload_media,
    upload_request, set_featured_image, link_request.
  repeat authorised_step.
Qed.

Lemma migrate_content_authorised fuel : emits P (migrate_content self fuel).
Proof.
  unfold migrate_content.
  repeat first
    [ apply get_sitemap_urls_authorised
    | apply get_all_posts_via_api_authorised
    | apply emits_for_each; intros ?; unfold migrate_url, migrate_post
    | apply get_post_by_url_authorised
    | apply create_post_authorised
    | apply handle_featured_image_authorised
    | authorised_step ].
Qed.

End Credentials.

Lemma requests_Forall (Q : Request → Prop) (evs : list Event) :
  Forall (λ e, ∀ rq res, e = Http rq res → Q rq) evs → Forall Q (requests evs).
Proof.
  induction 1 as [|e evs He _ IH]; [constructor|].
  destruct e as [c|rq res|s|m]; try exact IH.
  rewrite requests_http. constructor; [by eapply He | exact IH].
Qed.

(** X11.  Whatever the network does, every request of a migration is of one
    of two kinds: a [GET] that carries no credentials and no body, or a
    [POST] that carries the credentials of the instance and goes to a URL
    that begins with its destination.  The credentials are sent to no other
    address. *)
Theorem migrate_content_requests_authorised
    (self : WordPressMigrator) (fuel : nat) (srv : Server) (h : list Event) :
  Forall (authorised self) (requests (migrate_content self fuel srv h).2).
Proof. apply requests_Forall, migrate_content_authorised. Qed.

(** ** What the loops let out *)

Lemma titled_dec (post : PyVal) : titled post ∨ ¬ titled post.
Proof.
  destruct post as [| | | |l|d]; try by right; intros (? & [=] & _).
  destruct (Py.assoc "title" d) as [t|] eqn:Ht.
  - destruct t as [| | | | |d']; try by right; intros (? & [= <-] & H);
      destruct (H _ Ht) as [? [=]].
    left. exists d. split; [done|]. intros t. rewrite Ht. intros [= <-]. by eexists.
  - left. exists d. split; [done|]. intros t. by rewrite Ht.
Qed.

Section ApiLoop.
Variable self : WordPressMigrator.

Lemma migrate_post_body_halts post :
  halts (title ← lift (t ← Py.getitem post "title"; Py.getitem t "rendered");
         out (LogMigrating title);;
         new_post ← create_post self post;
         new_post_id ← lift (Py.getitem new_post "id");
         handle_featured_image self post new_post_id;;
         out Advance;;
         sleep 1).
Proof.
  repeat first
    [ apply create_post_halts
    | apply (returns_halts _ (handle_featured_image_371_returns self _ _))
    | halts_step ].
Qed.

(** A post with a title to show is handled without an exception. *)
Lemma migrate_post_titled post srv h :
  titled post → (migrate_post self post srv h).1 = Some (Ok tt).
Proof.
  intros (d & -> & Ht). unfold migrate_post, try_except.
  pose proof (migrate_post_body_halts (PDict d) srv h) as Hh.
  match type of Hh with (?body srv h).1 ≠ None =>
    destruct (body srv h) as [[[[]|e]|] e1]; [done | | done] end.
  rewrite bind_lift. cbn [Py.get mbind Res_bind].
  destruct (Py.assoc "title" d) as [t|] eqn:Hd; cbn [default].
  - destruct (Ht t eq_refl) as [d' ->]. by cbn.
  - by cbn.
Qed.

(** Another post raises in the handler, before anything is sent or
    printed. *)
Lemma migrate_post_untitled post srv h :
  ¬ titled post → migrate_post self post srv h = (Some (Raise AttributeError), []).
Proof.
  intros Hn. unfold migrate_post, try_except. rewrite bind_lift.
  destruct post as [| | | |l|d]; try reflexivity.
  cbn [Py.getitem Py.get mbind Res_bind].
  destruct (Py.assoc "title" d) as [t|] eqn:Hd; cbn [default].
  - destruct t as [| | | | |d']; try reflexivity.
    exfalso. apply Hn. exists d. split; [done|]. intros t. rewrite Hd.
    intros [= <-]. by eexists.
  - exfalso. apply Hn. exists d. split; [done|]. intros t. by rewrite Hd.
Qed.

End ApiLoop.


Lemma for_each_aborts {A} (body : A → M unit) (before : list A) (x : A) (after : list A) e :
  ∀ srv h evs,
    for_each before body srv h = (Some (Ok tt), evs) →
    body x srv (h ++ evs) = (Some (Raise e), []) →
    for_each (before ++ x :: after) body srv h = (Some (Raise e), evs).
Proof.
  induction before as [|y before IH]; intros srv h evs Hb Hx.
  - injection Hb as <-. rewrite app_nil_r in Hx. cbn [for_each app].
    by rewrite bind_run, Hx.
  - cbn [for_each app] in *. rewrite bind_run in *.
    destruct (body y srv h) as [[[[]|e']|] e1]; try done.
    destruct (for_each before body srv (h ++ e1)) as [r e2] eqn:Hfe.
    injection Hb as -> <-. rewrite app_assoc in Hx.
    by rewrite (IH srv (h ++ e1) e2 Hfe Hx).
Qed.

Lemma for_each_returns {A} (body : A → M unit) (l : list A) :
  (∀ x, x ∈ l → ∀ srv h, (body x srv h).1 = Some (Ok tt)) →
  ∀ srv h, (for_each l body srv h).1 = Some (Ok tt).
Proof.
  induction l as [|x l IH]; intros Hb srv h; [done|].
  cbn [for_each]. rewrite bind_run.
  pose proof (Hb x ltac:(by left) srv h) as Hx.
  destruct (body x srv h) as [r e1]. cbv [fst snd] in Hx. subst r.
  pose proof (IH (λ y Hy, Hb y ltac:(by right)) srv (h ++ e1)) as Hl.
  by destruct (for_each l body srv (h ++ e1)) as [r e2]; cbv [fst snd] in *; subst r.
Qed.



(** ** What [migrate_content] lets out *)

Section RaisesOnly.
Context (P : Exn → Prop).

Lemma raises_only_returns {A} (m : M A) : returns m → raises_only P m.
Proof. intros Hm srv h e He. destruct (Hm srv h) as [a Ha]. congruence. Qed.

Lemma raises_only_bind {A B} (m : M A) (k : A → M B) :
  raises_only P m → (∀ a, raises_only P (k a)) → raises_only P (m ≫= k).
Proof.
  intros Hm Hk srv h e. rewrite bind_run. specialize (Hm srv h).
  destruct (m srv h) as [[[a|e']|] e1]; cbv [fst snd] in *.
  - specialize (Hk a srv (h ++ e1)). destruct (k a srv (h ++ e1)) as [r e2].
    exact (Hk e).
  - intros [= <-]. by apply Hm.
  - done.
Qed.

Lemma raises_only_for_each {A} (l : list A) (body : A → M unit) :
  (∀ x, raises_only P (body x)) → raises_only P (for_each l body).
Proof.
  intros Hb. induction l as [|x l IH]; cbn [for_each].
  - by apply raises_only_returns, returns_ret.
  - apply raises_only_bind; [apply Hb | intros; apply IH].
Qed.

End RaisesOnly.

Section Escapes.
Variable self : WordPressMigrator.

Lemma get_sitemap_urls_raises :
  raises_only (λ e, e = TypeError) (get_sitemap_urls self).
Proof.
  unfold get_sitemap_urls.
  apply raises_only_bind; [apply raises_only_returns, returns_emit | intros _].
  apply raises_only_bind.
  { apply raises_only_returns. intros srv h.
    destruct (get_all_sitemaps_returns self srv h) as (l & evs & ->). by exists l. }
  intros [|u rest].
  { apply raises_only_returns, returns_bind; [apply returns_out | intros; apply returns_ret]. }
  apply raises_only_bind; [apply raises_only_returns, read_sitemaps_returns | intros urls].
  apply raises_only_bind; [| intros; apply raises_only_returns, returns_ret].
  intros srv h e. unfold lift. cbv [fst].
  destruct (filter_post_urls_result (elements urls)) as [(s & Heq & _)|Heq];
    rewrite Heq; congruence.
Qed.

Lemma get_all_posts_via_api_raises fuel :
  raises_only (λ _, False) (get_all_posts_via_api self fuel).
Proof.
  intros srv h e He. unfold get_all_posts_via_api in He. rewrite bind_enter in He.
  destruct (fetch_pages_requests self fuel 1 [] srv (h ++ [Enter CGetAllPostsViaApi]))
    as (n & _ & _ & Hout).
  destruct (fetch_pages self fuel 1 [] srv _) as [r evs]. cbv [fst snd] in He, Hout.
  by subst r.
Qed.

Lemma migrate_post_raises_only post :
  raises_only (λ e, e = AttributeError) (migrate_post self post).
Proof.
  intros srv h e He. destruct (titled_dec post) as [Ht|Hn].
  - rewrite (migrate_post_titled self post srv h Ht) in He. done.
  - rewrite (migrate_post_untitled self post srv h Hn) in He. by injection He as <-.
Qed.

Lemma sitemap_loop_returns post_urls : returns (for_each post_urls (migrate_url self)).
Proof.
  induction post_urls as [|url l IH]; cbn [for_each].
  - apply returns_ret.
  - apply returns_bind; [apply migrate_url_returns | intros; apply IH].
Qed.

Lemma migrate_content_raises_only fuel :
  raises_only (λ e, e = TypeError ∨ e = AttributeError) (migrate_content self fuel).
Proof.
  unfold migrate_content.
  apply raises_only_bind; [apply raises_only_returns, returns_emit | intros _].
  apply raises_only_bind; [apply raises_only_returns, returns_out | intros _].
  apply raises_only_bind.
  { intros srv h e He. left. by apply (get_sitemap_urls_raises srv h). }
  intros post_urls.
  apply raises_only_bind; [apply raises_only_returns, returns_out | intros _].
  destruct post_urls as [|url rest].
  - apply raises_only_bind; [apply raises_only_returns, returns_out | intros _].
    apply raises_only_bind; [apply raises_only_returns, returns_out | intros _].
    apply raises_only_bind.
    { intros srv h e He. by destruct (get_all_posts_via_api_raises fuel srv h e He). }
    intros posts.
    apply raises_only_bind; [apply raises_only_returns, returns_out | intros _].
    destruct posts as [|post posts]; [apply raises_only_returns, returns_out|].
    apply raises_only_bind; [apply raises_only_returns, returns_out | intros _].
    apply raises_only_bind; [apply raises_only_returns, returns_out | intros _].
    apply raises_only_for_each. intros p srv h e He. right.
    by apply (migrate_post_raises_only p srv h).
  - apply raises_only_bind; [apply raises_only_returns, returns_out | intros _].
    apply raises_only_bind; [apply raises_only_returns, returns_out | intros _].
    apply raises_only_returns, sitemap_loop_returns.
Qed.

End Escapes.





(** ** A source that cannot be read *)

Lemma requests_enter c evs : requests (Enter c :: evs) = requests evs.
Proof. reflexivity. Qed.

Lemma requests_out m evs : requests (Out m :: evs) = requests evs.
Proof. reflexivity. Qed.

Section Refused.
Variable self : WordPressMigrator.
Variable srv : Server.
Hypothesis Hrefuses : refuses srv.

Lemma get_sitemap_urls_refused h :
  ∃ evs,
    get_sitemap_urls self srv h = (Some (Ok []), evs) ∧
    requests evs = map (λ p, get_request (source_url self +:+ p)) potential_sitemaps.
Proof.
  unfold get_sitemap_urls, get_all_sitemaps. rewrite bind_enter.
  set (h1 := h ++ [Enter CGetSitemapUrls]). rewrite bind_run, bind_enter.
  set (h2 := h1 ++ [Enter CGetAllSitemaps]).
  assert (Hnone : (probe_sitemaps self potential_sitemaps [] srv h2).1 = Some (Ok [])).
  { apply probe_sitemaps_none. intros h' p r _ Hr.
    pose proof (Hrefuses h' (get_request (source_url self +:+ p))) as Hs.
    rewrite Hr in Hs. lia. }
  destruct (probe_sitemaps_run self potential_sitemaps [] srv h2)
    as (kept & evs & Hrun & _ & Hreq & _).
  rewrite Hrun in Hnone |- *. cbv [fst snd] in Hnone |- *. injection Hnone as ->.
  cbn [app]. rewrite bind_out. eexists. split; [reflexivity|]. cbv [fst snd].
  rewrite !requests_enter, requests_app, Hreq, requests_out. apply app_nil_r.
Qed.

Lemma get_all_posts_via_api_refused fuel h :
  ∃ evs,
    get_all_posts_via_api self (S fuel) srv h = (Some (Ok []), evs) ∧
    requests evs = [page_request self 1].
Proof.
  unfold get_all_posts_via_api. rewrite bind_enter.
  set (h1 := h ++ [Enter CGetAllPostsViaApi]).
  pose proof (Hrefuses h1 (page_request self 1)) as Hs.
  destruct (srv h1 (page_request self 1)) as [r|] eqn:Hr.
  - destruct (decide (status_code r = 400)) as [H400|Hn].
    + rewrite (fetch_pages_end self srv fuel 1 [] h1 r Hr (or_introl H400)).
      by eexists.
    + rewrite (fetch_pages_fail self srv fuel 1 [] h1 _ _ Hr
                 (fails_status r ltac:(lia))).
      by eexists.
  - rewrite (fetch_pages_fail self srv fuel 1 [] h1 _ _ Hr fails_network).
    by eexists.
Qed.

End Refused.



(** ** The bookkeeping of an item *)

Section Bookkeeping.
Variable self : WordPressMigrator.

Local Abbreviation plain := (λ e : Event, bookkeeping e = false).

Lemma get_post_by_url_plain url : emits plain (get_post_by_url self url).
Proof. unfold get_post_by_url. emits_auto. Qed.

Lemma create_post_plain post : emits plain (create_post self post).
Proof. unfold create_post. emits_auto. Qed.

Lemma handle_featured_image_plain post new_post_id :
  emits plain (handle_featured_image self post new_post_id).
Proof.
  unfold handle_featured_image, handle_featured_image_371, get_media, upload_media,
    set_featured_image.
  emits_auto.
Qed.

(** A loop body is a [try] whose handler only prints. *)
Lemma pause_try (body : M unit) hd srv h :
  (∀ e, emits plain (hd e)) →
  item_pause (body srv h) →
  item_pause (try_except body hd srv h).
Proof.
  intros Hh Hb. unfold try_except, item_pause in *.
  destruct (body srv h) as [[[[]|e]|] e1]; cbv [fst snd] in *.
  - exact Hb.
  - destruct Hb as [Hb|[[=] _]]. left.
    specialize (Hh e srv (h ++ e1)). destruct (hd e srv (h ++ e1)) as [r e2].
    cbv [fst snd] in *. by apply Forall_app.
  - destruct Hb as [Hb|[[=] _]]. by left.
Qed.

(** The rest of a loop body after the post is at hand. *)
Lemma pause_transfer post (pre : list Event) srv h :
  Forall plain pre →
  let run :=
    (new_post ← create_post self post;
     new_post_id ← lift (Py.getitem new_post "id");
     handle_featured_image self post new_post_id;;
     out Advance;; sleep 1) srv h in
  item_pause (run.1, pre ++ run.2).
Proof.
  intros Hpre run. subst run. rewrite bind_run.
  pose proof (create_post_plain post srv h) as Hc.
  destruct (create_post self post srv h) as [[[new_post|e]|] ev1]; cbv [fst snd] in Hc.
  - rewrite transfer_run.
    destruct (Py.getitem new_post "id") as [new_post_id|e].
    + right. cbv [fst snd]. split; [reflexivity|].
      exists (pre ++ ev1 ++ (handle_featured_image self post new_post_id srv (h ++ ev1)).2).
      split; [rewrite <- !app_assoc; reflexivity|].
      rewrite !Forall_app. split_and!; [exact Hpre | exact Hc |].
      apply handle_featured_image_plain.
    + left. cbv [fst snd]. rewrite app_nil_r. apply Forall_app. by split.
  - left. apply Forall_app. by split.
  - left. apply Forall_app. by split.
Qed.

Lemma migrate_post_pause post srv h : item_pause (migrate_post self post srv h).
Proof.
  unfold migrate_post. apply pause_try; [intros e; emits_auto|].
  rewrite bind_lift. destruct (_ ≫= _) as [title|e]; [| by left].
  rewrite bind_out.
  apply (pause_transfer post [Out (LogMigrating title)]). by repeat constructor.
Qed.

Lemma migrate_url_pause url srv h : item_pause (migrate_url self url srv h).
Proof.
  unfold migrate_url. apply pause_try; [intros e; emits_auto|].
  rewrite bind_out. set (h1 := h ++ [_]). rewrite bind_run.
  pose proof (get_post_by_url_plain url srv h1) as Hg.
  destruct (get_post_by_url self url srv h1) as [[[post|e]|] ev0]; cbv [fst snd] in Hg.
  - destruct (Py.truthy post); cbn [negb].
    + pose proof (pause_transfer post (Out (LogProcessing url) :: ev0) srv (h1 ++ ev0)) as H.
      cbv zeta in H. rewrite <- app_comm_cons in H.
      match type of H with _ → item_pause ((?run).1, _) =>
        destruct run as [r e2] end.
      apply H. by constructor.
    + left. cbv [fst snd]. constructor; [done|]. apply Forall_app. by repeat constructor.
  - left. by constructor.
  - left. by constructor.
Qed.

End Bookkeeping.


(** ** The requests of the media operations *)

Section MediaRequests.
Variable self : WordPressMigrator.

Lemma get_media_sends media_url srv h :
  ∃ media_content evs,
    get_media self media_url srv h = (Some (Ok media_content), evs) ∧
    requests evs = [get_request media_url].
Proof.
  unfold get_media. rewrite bind_enter. unfold try_except, session_get.
  rewrite send_run. fold (get_request media_url).
  destruct (srv _ (get_request media_url)) as [r|]; [|by eexists _, _].
  rewrite raise_for_status_run. destruct (_ && _); by eexists _, _.
Qed.

Lemma upload_media_sends media_content filename srv h :
  bytes_truthy media_content = true →
  ∃ r evs,
    upload_media self media_content filename srv h = (Some r, evs) ∧
    requests evs = [upload_request self media_content filename].
Proof.
  intros Hc. unfold upload_media. rewrite bind_enter. unfold try_except.
  rewrite Hc. cbn [negb]. rewrite bind_ret, send_run.
  destruct (srv _ (upload_request self media_content filename)) as [r|];
    [|by eexists _, _].
  rewrite raise_for_status_run. destruct (_ && _); [by eexists _, _|].
  rewrite response_json_run. destruct (json_body r); by eexists _, _.
Qed.

Lemma set_featured_image_sends post_id media_id srv h :
  ∃ result evs,
    set_featured_image self post_id media_id srv h = (Some (Ok result), evs) ∧
    requests evs = [link_request self post_id media_id].
Proof.
  unfold set_featured_image. rewrite bind_enter. unfold try_except.
  rewrite send_run.
  destruct (srv _ (link_request self post_id media_id)) as [r|]; [|by eexists _, _].
  rewrite raise_for_status_run. destruct (_ && _); [by eexists _, _|].
  rewrite response_json_run. destruct (json_body r); by eexists _, _.
Qed.

(** A handler that only prints adds no request. *)
Lemma requests_try_out {A} (m : M A) (hd : Exn → M A) srv h :
  (∀ e srv h, requests (hd e srv h).2 = []) →
  requests (try_except m hd srv h).2 = requests (m srv h).2.
Proof.
  intros Hh. unfold try_except. destruct (m srv h) as [[[a|e]|] e1]; try done.
  specialize (Hh e srv (h ++ e1)). destruct (hd e srv (h ++ e1)) as [r e2].
  cbv [fst snd] in *. by rewrite requests_app, Hh, app_nil_r.
Qed.

Lemma requests_bind_enter {B} c (k : unit → M B) srv h :
  requests ((enter c ≫= k) srv h).2 = requests (k tt srv (h ++ [Enter c])).2.
Proof. by rewrite bind_enter. Qed.

Lemma requests_bind_out {B} m (k : unit → M B) srv h :
  requests ((out m ≫= k) srv h).2 = requests (k tt srv (h ++ [Out m])).2.
Proof. by rewrite bind_out. Qed.

Lemma requests_bind {A B} (m : M A) (k : A → M B) srv h a evs :
  m srv h = (Some (Ok a), evs) →
  requests ((m ≫= k) srv h).2 = requests evs ++ requests (k a srv (h ++ evs)).2.
Proof.
  intros Hm. rewrite bind_run, Hm. destruct (k a srv (h ++ evs)) as [r e2].
  apply requests_app.
Qed.

Lemma handle_featured_image_sends post new_post_id srv h :
  media_requests self new_post_id
    (requests (handle_featured_image self post new_post_id srv h).2).
Proof.
  unfold handle_featured_image, handle_featured_image_371.
  rewrite requests_bind_enter, requests_try_out by done.
  set (h1 := h ++ [_]). rewrite bind_lift.
  destruct (has_featured_media post) as [[|]|e]; try constructor.
  rewrite bind_lift. destruct (_ ≫= _) as [media_url|e]; [|constructor].
  rewrite bind_lift. destruct media_url as [| | |u| |]; try constructor.
  cbn [Py.split]. rewrite requests_bind_out.
  set (filename := PyStr.last_piece (PyStr.split "/" u)).
  set (h2 := h1 ++ [_]).
  destruct (get_media_sends u srv h2) as (media_content & evs1 & Hrun1 & Hreq1).
  rewrite (requests_bind _ _ _ _ _ _ Hrun1), Hreq1, requests_bind_out.
  set (h3 := (h2 ++ evs1) ++ [_]). cbn [app].
  destruct (bytes_truthy media_content) eqn:Hc.
  - destruct (upload_media_sends media_content filename srv h3 Hc)
      as (r & evs2 & Hrun2 & Hreq2).
    destruct r as [uploaded_media|e].
    + rewrite (requests_bind _ _ _ _ _ _ Hrun2), Hreq2. cbn [app].
      rewrite bind_lift.
      destruct (Py.getitem uploaded_media "id") as [media_id|e];
        [|by apply media_upload].
      destruct (set_featured_image_sends new_post_id media_id srv (h3 ++ evs2))
        as (result & evs3 & Hrun3 & Hreq3).
      rewrite (requests_bind _ _ _ _ _ _ Hrun3), Hreq3.
      by apply media_link.
    + rewrite bind_run, Hrun2. cbv [snd]. rewrite Hreq2. by apply media_upload.
  - rewrite bind_run, (upload_media_empty self media_content filename srv h3 Hc).
    apply media_download.
Qed.

End MediaRequests.



